(** * Workflow executor (mx_agent): a shallow embedding and its properties

    The development follows [src/graphs/workflow.py] (the graph model) and
    [src/graphs/workflow_executor.py] (node handlers, graph construction and
    the run entry point).

    Conventions.
    - A Python [str] is represented by its UTF-8 encoding as a [string];
      [py_chars] splits it into code points, which is what iterating over a
      Python string yields, and [py_len] counts them.
    - A Python [dict] used as a map is a [gmap]; where the insertion order is
      observable (the [inputs] dictionary of the model-call handler, the
      operand dictionaries of a comparison) it is an association list.
    - A raised exception is the [Raise] case of [Res]; handlers thread the
      workflow state explicitly. *)

From Stdlib Require Import ZArith String Ascii List Bool Lia.
From Stdlib Require Import Floats.SpecFloat.
From stdpp Require Import base option list gmap strings fin_maps.

Local Open Scope string_scope.
Local Open Scope list_scope.
Local Open Scope Z_scope.

(** ** Exceptions and results *)

(** The exceptions the executor can surface.  The first group is raised by
    the Python code of the repository itself, [StructuralError] and
    [RecursionLimitError] by the graph runner, [ExternalError] by the
    chat-completion client. *)
Inductive PyErr : Type :=
  | KeyError
  | TypeError
  | ValueError
  | AttributeError
  | OverflowError
  | StopIteration
  | RuntimeError
  | StructuralError
  | RecursionLimitError
  | ExternalError (msg : string).

Inductive Res (A : Type) : Type :=
  | Ok (a : A)
  | Raise (e : PyErr).
Arguments Ok {A} a.
Arguments Raise {A} e.

#[global] Instance Res_ret : MRet Res := fun A a => Ok a.
#[global] Instance Res_bind : MBind Res := fun A B f m =>
  match m with
  | Ok a => f a
  | Raise e => Raise e
  end.

Definition is_ok {A} (r : Res A) : bool :=
  match r with Ok _ => true | Raise _ => false end.

(** [d[k]] on a Python dictionary. *)
Definition getitem {V} (d : gmap string V) (k : string) : Res V :=
  match d !! k with
  | Some v => Ok v
  | None => Raise KeyError
  end.

(** ** Python values *)

(** The values a workflow description can carry (a literal content is a
    string, an integer, a float or a boolean) and [None].  Lists,
    dictionaries and bytes are outside this type: statements over
    [PyValue] say nothing about a seed input or a reply that is a
    container. *)
Inductive PyValue : Type :=
  | PyStr (s : string)
  | PyInt (z : Z)
  | PyFloat (f : spec_float)
  | PyBool (b : bool)
  | PyNone.

(** *** Strings as sequences of code points *)

(** A UTF-8 continuation byte has the bit pattern [10xxxxxx]. *)
Definition is_continuation (c : ascii) : bool :=
  match c with
  | Ascii _ _ _ _ _ _ b6 b7 => b7 && negb b6
  end.

(** [split_points s] is the pair of the continuation bytes [s] starts with
    and the code points that follow them. *)
Fixpoint split_points (s : string) : string * list string :=
  match s with
  | EmptyString => (EmptyString, [])
  | String c rest =>
      let '(k, cs) := split_points rest in
      if is_continuation c then (String c k, cs)
      else (EmptyString, String c k :: cs)
  end.

(** [for char in s]: the code points of [s], in order. *)
Definition py_chars (s : string) : list string := snd (split_points s).

(** [len(s)] for a string. *)
Definition py_len (s : string) : Z := Z.of_nat (length (py_chars s)).

(** *** Equality, [len] and [int] *)

Definition as_int (v : PyValue) : option Z :=
  match v with
  | PyInt z => Some z
  | PyBool b => Some (Z.b2z b)
  | _ => None
  end.

Definition signed (s : bool) (z : Z) : Z := if s then - z else z.

(** A float compares equal to an integer when it denotes exactly that
    integer. *)
Definition float_eq_int (f : spec_float) (z : Z) : bool :=
  match f with
  | S754_zero _ => z =? 0
  | S754_finite s m e =>
      if 0 <=? e then signed s (Z.shiftl (Zpos m) e) =? z
      else (Z.land (Zpos m) (Z.ones (- e)) =? 0)
           && (signed s (Z.shiftr (Zpos m) (- e)) =? z)
  | _ => false
  end.

(** [left == right] on the values the workflow description can carry. *)
Definition py_eq (a b : PyValue) : bool :=
  match a, b with
  | PyStr s, PyStr t => String.eqb s t
  | PyStr _, _ | _, PyStr _ => false
  | PyNone, PyNone => true
  | PyNone, _ | _, PyNone => false
  | PyFloat f, PyFloat g => SFeqb f g
  | PyFloat f, _ =>
      match as_int b with Some z => float_eq_int f z | None => false end
  | _, PyFloat g =>
      match as_int a with Some z => float_eq_int g z | None => false end
  | _, _ =>
      match as_int a, as_int b with
      | Some x, Some y => x =? y
      | _, _ => false
      end
  end.

(** [len(v)]: only strings are sized among the values at hand. *)
Definition len (v : PyValue) : Res Z :=
  match v with
  | PyStr s => Ok (py_len s)
  | _ => Raise TypeError
  end.

Definition is_space (c : ascii) : bool :=
  let n := nat_of_ascii c in
  (Nat.eqb n 32) || ((Nat.leb 9 n) && (Nat.leb n 13)).

Definition digit_of (c : ascii) : option Z :=
  let n := nat_of_ascii c in
  if (Nat.leb 48 n) && (Nat.leb n 57) then Some (Z.of_nat n - 48) else None.

Fixpoint lstrip (l : list ascii) : list ascii :=
  match l with
  | c :: l' => if is_space c then lstrip l' else l
  | [] => []
  end.

Definition strip (l : list ascii) : list ascii :=
  rev (lstrip (rev (lstrip l))).

(** Decimal digits, single underscores allowed between two digits. *)
Fixpoint digits (l : list ascii) (acc : Z) (after_digit : bool) : option Z :=
  match l with
  | [] => if after_digit then Some acc else None
  | c :: l' =>
      match digit_of c with
      | Some d => digits l' (10 * acc + d) true
      | None =>
          if Ascii.eqb c "_"%char && after_digit then digits l' acc false
          else None
      end
  end.

(** [int(s)] for a string of ASCII characters: surrounding white space
    (space, tab, line feed, vertical tab, form feed, carriage return), an
    optional sign, decimal digits.  Digits and white space beyond ASCII,
    which [int] also accepts, and its limit on the number of digits are
    left out: on such strings the result given here is not that of
    Python. *)
Definition int_of_string (s : string) : Res Z :=
  let body := strip (list_ascii_of_string s) in
  let '(neg, ds) :=
    match body with
    | c :: l' =>
        if Ascii.eqb c "-"%char then (true, l')
        else if Ascii.eqb c "+"%char then (false, l')
        else (false, body)
    | [] => (false, body)
    end in
  match digits ds 0 false with
  | Some z => Ok (signed neg z)
  | None => Raise ValueError
  end.

(** [int(v)]: truncation towards zero on floats. *)
Definition int (v : PyValue) : Res Z :=
  match v with
  | PyStr s => int_of_string s
  | PyInt z => Ok z
  | PyBool b => Ok (Z.b2z b)
  | PyFloat (S754_zero _) => Ok 0
  | PyFloat (S754_finite s m e) =>
      Ok (signed s (if 0 <=? e then Z.shiftl (Zpos m) e
                    else Z.shiftr (Zpos m) (- e)))
  | PyFloat (S754_infinity _) => Raise OverflowError
  | PyFloat S754_nan => Raise ValueError
  | PyNone => Raise TypeError
  end.

(** ** The graph model ([workflow.py]) *)

Inductive NodeType : Type := START | END | LLM | KB | CONDITION.

(** [NodeType.X.value]: the wire encoding of a node kind. *)
Definition NodeType_value (t : NodeType) : string :=
  match t with
  | START => "1"
  | END => "2"
  | LLM => "3"
  | KB => "4"
  | CONDITION => "8"
  end.

(** The [value] of an input slot: [{"type": "ref", "content": {"blockID",
    "name"}}] or a literal [content]. *)
Inductive ValueContent : Type :=
  | Literal (content : PyValue)
  | Ref (blockID name : string).

Record InputValue : Type := {
  input_type : string;
  value : ValueContent
}.

Record InputParameter : Type := {
  input : InputValue;
  name : string
}.

Record Condition : Type := {
  left : list (string * InputValue);
  operator : Z;
  right : list (string * InputValue)
}.

Record ConditionConfig : Type := {
  conditions : list Condition;
  logic : Z
}.

Record Branch : Type := { condition : ConditionConfig }.

(** Only the fields the executor reads are kept; an absent key is [None]. *)
Record NodeInputs : Type := {
  inputParameters : option (list InputParameter);
  branches : option (list Branch)
}.

Record NodeData : Type := { inputs : option NodeInputs }.

Record Node : Type := {
  data : NodeData;
  id : string;
  type : string
}.

Record Edge : Type := {
  sourceNodeID : string;
  targetNodeID : string;
  sourcePortID : string
}.

Record Workflow : Type := {
  nodes : list Node;
  edges : list Edge;
  versions : list (string * string)
}.

Record WorkflowJson : Type := {
  json_nodes : list Node;
  json_edges : list Edge;
  json_versions : list (string * string)
}.

(** [Workflow.get_node_by_id]: the first node carrying the identifier. *)
Definition get_node_by_id (w : Workflow) (node_id : string) : option Node :=
  find (fun node => String.eqb (id node) node_id) (nodes w).

(** [Workflow.get_next_nodes]. *)
Definition get_next_nodes (w : Workflow) (node_id : string) : list Node :=
  flat_map
    (fun edge =>
       if String.eqb (sourceNodeID edge) node_id then
         match get_node_by_id w (targetNodeID edge) with
         | Some next_node => [next_node]
         | None => []
         end
       else [])
    (edges w).

(** [Workflow.validate]: one pass setting two flags. *)
Definition validate (w : Workflow) : bool :=
  let '(has_start, has_end) :=
    fold_left
      (fun '(has_start, has_end) node =>
         if String.eqb (type node) (NodeType_value START) then (true, has_end)
         else if String.eqb (type node) (NodeType_value END)
              then (has_start, true)
              else (has_start, has_end))
      (nodes w) (false, false) in
  has_start && has_end.

(** [create_workflow_from_json]: the description is taken over as it is; no
    check is made. *)
Definition create_workflow_from_json (json_data : WorkflowJson) : Workflow :=
  {| nodes := json_nodes json_data;
     edges := json_edges json_data;
     versions := json_versions json_data |}.

(** ** The execution state ([workflow_executor.py]) *)

Record NodeOutput : Type := {
  out_value : PyValue;
  out_type : string
}.

(** [WorkflowState].  [condition_result] is the key the condition handler
    adds to the state dictionary; it is absent until then. *)
Record WorkflowState : Type := {
  node_outputs : gmap string (gmap string NodeOutput);
  current_node : string;
  final_output : PyValue;
  condition_result : option string
}.

Definition set_node_outputs (st : WorkflowState) outs : WorkflowState :=
  {| node_outputs := outs;
     current_node := current_node st;
     final_output := final_output st;
     condition_result := condition_result st |}.

Definition set_current_node (st : WorkflowState) node_id : WorkflowState :=
  {| node_outputs := node_outputs st;
     current_node := node_id;
     final_output := final_output st;
     condition_result := condition_result st |}.

Definition set_final_output (st : WorkflowState) v : WorkflowState :=
  {| node_outputs := node_outputs st;
     current_node := current_node st;
     final_output := v;
     condition_result := condition_result st |}.

Definition set_condition_result (st : WorkflowState) tag : WorkflowState :=
  {| node_outputs := node_outputs st;
     current_node := current_node st;
     final_output := final_output st;
     condition_result := Some tag |}.

(** [state["node_outputs"][source_node][output_name]["value"]]. *)
Definition output_value (st : WorkflowState) (source_node output_name : string)
  : Res PyValue :=
  outs ← getitem (node_outputs st) source_node;
  o ← getitem outs output_name;
  mret (out_value o).

(** The branch every handler takes on an input slot: a reference reads the
    store, anything else is the literal content. *)
Definition slot_value (st : WorkflowState) (v : ValueContent) : Res PyValue :=
  match v with
  | Ref source_node output_name => output_value st source_node output_name
  | Literal content => mret content
  end.

(** [d[k] = v] on an insertion-ordered dictionary: an existing key keeps its
    position. *)
Fixpoint dict_set {V} (d : list (string * V)) (k : string) (v : V)
  : list (string * V) :=
  match d with
  | [] => [(k, v)]
  | (k', v') :: d' =>
      if String.eqb k' k then (k', v) :: d' else (k', v') :: dict_set d' k v
  end.

(** ["".join(values)]: every item has to be a string. *)
Fixpoint join (values : list PyValue) : Res string :=
  match values with
  | [] => mret EmptyString
  | PyStr s :: rest => r ← join rest; mret (s ++ r)%string
  | _ :: _ => Raise TypeError
  end.

Definition params_of (node : Node) : list InputParameter :=
  default [] (inputs (data node) ≫= inputParameters).

Definition branches_of (node : Node) : list Branch :=
  default [] (inputs (data node) ≫= branches).

(** The text the knowledge-base handler records. *)
Definition kb_placeholder : string :=
  "这里是从知识库检索到的相关内容...".

Definition string_output (s : string) : NodeOutput :=
  {| out_value := PyStr s; out_type := "string" |}.

(** ** Node handlers *)

Section Handlers.

Variable workflow : Workflow.

(** The chat-completion client, [chat_model.invoke(prompt).content]: the
    text of the reply, or the message of the failure. *)
Variable chat_model : string -> string + string.

Definition invoke (prompt : string) : Res string :=
  match chat_model prompt with
  | inl content => Ok content
  | inr msg => Raise (ExternalError msg)
  end.

(** [node = self.workflow.get_node_by_id(state["current_node"])] followed
    by the first attribute access on [node]. *)
Definition current (state : WorkflowState) : Res Node :=
  match get_node_by_id workflow (current_node state) with
  | Some node => Ok node
  | None => Raise AttributeError
  end.

Definition _handle_start_node (state : WorkflowState) : Res WorkflowState :=
  node ← current state;
  mret state.

(** The loop filling [inputs] in [_handle_llm_node]. *)
Fixpoint llm_inputs (state : WorkflowState) (input_params : list InputParameter)
    (inputs : list (string * PyValue)) : Res (list (string * PyValue)) :=
  match input_params with
  | [] => mret inputs
  | param :: rest =>
      v ← slot_value state (value (input param));
      llm_inputs state rest (dict_set inputs (name param) v)
  end.

Definition _handle_llm_node (state : WorkflowState) : Res WorkflowState :=
  node ← current state;
  inputs ← llm_inputs state (params_of node) [];
  input_str ← join (map snd inputs);
  output ← invoke input_str;
  mret (set_node_outputs state
          (<[id node := {["output" := string_output output]}]>
             (node_outputs state))).

(** [_get_condition_value]: the first entry of the operand dictionary
    decides; an empty dictionary falls off the loop and yields [None]. *)
Definition _get_condition_value (value_dict : list (string * InputValue))
    (state : WorkflowState) : Res PyValue :=
  match value_dict with
  | [] => mret PyNone
  | (_, input_value) :: _ => slot_value state (value input_value)
  end.

Definition _compare_values (l : PyValue) (operator : Z) (r : PyValue)
  : Res bool :=
  if operator =? 1 then mret (py_eq l r)
  else if operator =? 2 then mret (negb (py_eq l r))
  else if operator =? 3 then
    n ← len l; k ← int r; mret (k <? n)
  else if operator =? 4 then
    n ← len l; k ← int r; mret (n <? k)
  else mret false.

(** One comparison of a group, as the loop body evaluates it. *)
Definition eval_condition (state : WorkflowState) (c : Condition) : Res bool :=
  left_value ← _get_condition_value (left c) state;
  right_value ← _get_condition_value (right c) state;
  _compare_values left_value (operator c) right_value.

(** The loop over the comparisons of the first group. *)
Fixpoint eval_conditions (state : WorkflowState) (cs : list Condition)
  : Res string :=
  match cs with
  | [] => mret "false"
  | c :: rest =>
      b ← eval_condition state c;
      if b : bool then mret "true" else eval_conditions state rest
  end.

Definition _handle_condition_node (state : WorkflowState)
  : Res WorkflowState :=
  node ← current state;
  match branches_of node with
  | [] => mret (set_condition_result state "true")
  | branch :: _ =>
      tag ← eval_conditions state (conditions (condition branch));
      mret (set_condition_result state tag)
  end.

(** The loop of [_handle_end_node]: the first reference is read, then
    [break]. *)
Fixpoint end_output (state : WorkflowState) (input_params : list InputParameter)
  : Res WorkflowState :=
  match input_params with
  | [] => mret state
  | param :: rest =>
      match value (input param) with
      | Ref source_node output_name =>
          final ← output_value state source_node output_name;
          mret (set_final_output state final)
      | Literal _ => end_output state rest
      end
  end.

Definition _handle_end_node (state : WorkflowState) : Res WorkflowState :=
  node ← current state;
  end_output state (params_of node).

Definition should_continue (state : WorkflowState) : string :=
  default "false" (condition_result state).

(** The loop computing [query] in [_handle_kb_node]: every reference
    overwrites it, literals are skipped. *)
Fixpoint kb_query (state : WorkflowState) (input_params : list InputParameter)
    (query : PyValue) : Res PyValue :=
  match input_params with
  | [] => mret query
  | param :: rest =>
      match value (input param) with
      | Ref source_node output_name =>
          q ← output_value state source_node output_name;
          kb_query state rest q
      | Literal _ => kb_query state rest query
      end
  end.

Definition _handle_kb_node (state : WorkflowState) : Res WorkflowState :=
  node ← current state;
  query ← kb_query state (params_of node) (PyStr "");
  let context := kb_placeholder in
  mret (set_node_outputs state
          (<[id node := {["context" := string_output context]}]>
             (node_outputs state))).

(** [create_node_handler]: dispatch on the wire encoding of the kind. *)
Definition create_node_handler (node_type : string) : Res NodeType :=
  if String.eqb node_type (NodeType_value START) then mret START
  else if String.eqb node_type (NodeType_value LLM) then mret LLM
  else if String.eqb node_type (NodeType_value CONDITION) then mret CONDITION
  else if String.eqb node_type (NodeType_value END) then mret END
  else if String.eqb node_type (NodeType_value KB) then mret KB
  else Raise ValueError.

Definition handler (kind : NodeType) : WorkflowState -> Res WorkflowState :=
  match kind with
  | START => _handle_start_node
  | LLM => _handle_llm_node
  | CONDITION => _handle_condition_node
  | END => _handle_end_node
  | KB => _handle_kb_node
  end.

(** [wrapped_handler] of [build]: the node identifier is written to the
    state before the handler is called. *)
Definition wrapped_handler (node_id : string) (kind : NodeType)
    (state : WorkflowState) : Res WorkflowState :=
  handler kind (set_current_node state node_id).

End Handlers.

(** ** The graph under construction and the run loop *)

(** What [build] records in [self.graph]: the handler of every node, the
    branch-tagged routing table per source node, the unconditional edges,
    the entry and the finish point. *)
Record StateGraph : Type := {
  graph_nodes : list (string * NodeType);
  graph_branches : gmap string (gmap string string);
  graph_edges : list (string * string);
  entry_point : option string;
  finish_point : option string
}.

Definition empty_graph : StateGraph :=
  {| graph_nodes := []; graph_branches := ∅; graph_edges := [];
     entry_point := None; finish_point := None |}.

Definition handler_of (g : StateGraph) (node_id : string) : option NodeType :=
  snd <$> find (fun entry => String.eqb (fst entry) node_id) (graph_nodes g).

(** Modelled from the spec: [add_node] of the graph library the executor
    builds on (LangGraph's [StateGraph], imported by [workflow_executor.py]
    and not part of the repository).  Node identifiers are unique (data
    model, "id: unique string"): a second registration of an identifier is a
    structural error. *)
Definition add_node (g : StateGraph) (node_id : string) (kind : NodeType)
  : Res StateGraph :=
  match handler_of g node_id with
  | Some _ => Raise StructuralError
  | None =>
      mret {| graph_nodes := graph_nodes g ++ [(node_id, kind)];
              graph_branches := graph_branches g;
              graph_edges := graph_edges g;
              entry_point := entry_point g;
              finish_point := finish_point g |}
  end.

Definition add_conditional_edges (g : StateGraph) (source_node : string)
    (paths : gmap string string) : StateGraph :=
  {| graph_nodes := graph_nodes g;
     graph_branches := <[source_node := paths]> (graph_branches g);
     graph_edges := graph_edges g;
     entry_point := entry_point g;
     finish_point := finish_point g |}.

Definition add_edge (g : StateGraph) (source target : string) : StateGraph :=
  {| graph_nodes := graph_nodes g;
     graph_branches := graph_branches g;
     graph_edges := graph_edges g ++ [(source, target)];
     entry_point := entry_point g;
     finish_point := finish_point g |}.

Definition set_entry_point (g : StateGraph) (node_id : string) : StateGraph :=
  {| graph_nodes := graph_nodes g;
     graph_branches := graph_branches g;
     graph_edges := graph_edges g;
     entry_point := Some node_id;
     finish_point := finish_point g |}.

Definition set_finish_point (g : StateGraph) (node_id : string) : StateGraph :=
  {| graph_nodes := graph_nodes g;
     graph_branches := graph_branches g;
     graph_edges := graph_edges g;
     entry_point := entry_point g;
     finish_point := Some node_id |}.

(** [next(node for node in nodes if node.type == t)]. *)
Definition next_of_type (w : Workflow) (t : NodeType) : Res Node :=
  match find (fun node => String.eqb (type node) (NodeType_value t)) (nodes w)
  with
  | Some node => Ok node
  | None => Raise StopIteration
  end.

(** The dictionary [condition_edges] of [build]: every edge with a source
    port is filed under its source node and port; a later edge with the
    same source and port replaces the earlier one. *)
Definition collect_condition_edges (es : list Edge)
  : gmap string (gmap string string) :=
  fold_left
    (fun condition_edges edge =>
       if String.eqb (sourcePortID edge) "" then condition_edges
       else
         <[sourceNodeID edge :=
             <[sourcePortID edge := targetNodeID edge]>
               (default ∅ (condition_edges !! sourceNodeID edge))]>
           condition_edges)
    es ∅.

Section Executor.

Variable workflow : Workflow.
Variable chat_model : string -> string + string.

(** The first loop of [build]: one registered handler per node. *)
Fixpoint add_nodes (g : StateGraph) (ns : list Node) : Res StateGraph :=
  match ns with
  | [] => mret g
  | node :: rest =>
      kind ← create_node_handler (type node);
      g' ← add_node g (id node) kind;
      add_nodes g' rest
  end.

Definition build : Res StateGraph :=
  g ← add_nodes empty_graph (nodes workflow);
  let condition_edges := collect_condition_edges (edges workflow) in
  let g := map_fold (fun source_node paths g =>
                       add_conditional_edges g source_node paths)
                    g condition_edges in
  let g := fold_left
             (fun g edge =>
                if String.eqb (sourcePortID edge) ""
                then add_edge g (sourceNodeID edge) (targetNodeID edge)
                else g)
             (edges workflow) g in
  start_node ← next_of_type workflow START;
  end_node ← next_of_type workflow END;
  mret (set_finish_point (set_entry_point g (id start_node)) (id end_node)).

(** The successors of a node once its handler has returned: the target
    its routing table gives for the tag [should_continue] reads, and the
    targets of its unconditional edges. *)
Definition successors (g : StateGraph) (node_id : string)
    (state : WorkflowState) : Res (list string) :=
  tagged ← match graph_branches g !! node_id with
           | Some paths =>
               target ← getitem paths (should_continue state);
               mret [target]
           | None => mret []
           end;
  mret (tagged ++ map snd (List.filter
                             (fun e => String.eqb (fst e) node_id)
                             (graph_edges g))).

(** Modelled from the spec: one step of the run loop of the graph library
    (the compiled [StateGraph], not part of the repository), section 4.5.
    The handler of the current node runs (it records its outputs in the
    store itself; the loop adds nothing to what it returns), then the next
    node is determined: the run stops successfully at the finish point,
    after its handler; elsewhere the single successor is followed, and a
    node without one (a dead end), or with several, is a structural
    error. *)
Definition step (g : StateGraph) (node_id : string) (kind : NodeType)
    (state : WorkflowState) : Res (WorkflowState * option string) :=
  state' ← wrapped_handler workflow chat_model node_id kind state;
  if decide (finish_point g = Some node_id) then mret (state', None)
  else
    targets ← successors g node_id state';
    match targets with
    | [target] => mret (state', Some target)
    | _ => Raise StructuralError
    end.

(** Modelled from the spec: the run loop of the graph library (section 4.5),
    a sequential state machine over node identifiers.  One [step] is taken
    per unit of [budget]; the first exception ends the run, and exceeding
    the step budget, a successor being still pending when it is used up,
    fails with [RecursionLimitError].  The first component lists the nodes
    whose handler was invoked, in order. *)
Fixpoint run_loop (g : StateGraph) (budget : nat) (node_id : string)
    (state : WorkflowState) : list string * Res WorkflowState :=
  match budget with
  | O => ([], Raise RecursionLimitError)
  | S budget' =>
      match handler_of g node_id with
      | None => ([], Raise StructuralError)
      | Some kind =>
          match step g node_id kind state with
          | Raise e => ([node_id], Raise e)
          | Ok (state', None) => ([node_id], Ok state')
          | Ok (state', Some target) =>
              let '(visited, r) := run_loop g budget' target state' in
              (node_id :: visited, r)
          end
      end
  end.

(** [app.ainvoke(initial_state, {"recursion_limit": limit})] on the
    compiled graph: the run loop from the entry point. *)
Definition ainvoke (g : StateGraph) (initial_state : WorkflowState)
    (recursion_limit : nat) : list string * Res WorkflowState :=
  match entry_point g with
  | Some start => run_loop g recursion_limit start initial_state
  | None => ([], Raise StructuralError)
  end.

(** The state [run] starts from: the question is seeded under the start
    node, the final output is the empty string. *)
Definition initial_state (start_node : Node) (question : PyValue)
  : WorkflowState :=
  {| node_outputs :=
       {[ id start_node :=
            {[ "question" := {| out_value := question;
                                out_type := "string" |} ]} ]};
     current_node := id start_node;
     final_output := PyStr "";
     condition_result := None |}.

(** The body of [run] up to the final state, with the nodes visited. *)
Definition run_state (inputs : gmap string PyValue)
  : list string * Res WorkflowState :=
  match next_of_type workflow START with
  | Raise e => ([], Raise e)
  | Ok start_node =>
      match getitem inputs "question" with
      | Raise e => ([], Raise e)
      | Ok question =>
          match build with
          | Raise e => ([], Raise e)
          | Ok graph =>
              ainvoke graph (initial_state start_node question)
                      (length (nodes workflow) * 2)%nat
          end
      end
  end.

(** [for char in final_output: yield char]. *)
Definition stream (final_output : PyValue) : Res (list string) :=
  match final_output with
  | PyStr s => Ok (py_chars s)
  | _ => Raise TypeError
  end.

(** A [StopIteration] escaping the body of a generator reaches the
    consumer as a [RuntimeError]. *)
Definition escaping (e : PyErr) : PyErr :=
  match e with
  | StopIteration => RuntimeError
  | _ => e
  end.

(** [run]: the characters the consumer receives, or the exception raised
    before the first of them. *)
Definition run (inputs : gmap string PyValue) : Res (list string) :=
  match snd (run_state inputs) with
  | Ok final_state => stream (final_output final_state)
  | Raise e => Raise (escaping e)
  end.

(** The nodes whose handler one run invokes, in order. *)
Definition visited (inputs : gmap string PyValue) : list string :=
  fst (run_state inputs).

End Executor.


(** ** Notions used in the statements *)

(** The store holds output [output_name] of node [source_node]. *)
Definition produced (state : WorkflowState) (source_node output_name : string)
  : Prop :=
  is_Some (node_outputs state !! source_node ≫= (.!! output_name)).

Definition is_literal (p : InputParameter) : Prop :=
  match value (input p) with
  | Literal _ => True
  | Ref _ _ => False
  end.

#[global] Instance is_literal_dec p : Decision (is_literal p).
Proof. unfold is_literal. destruct (value (input p)); apply _. Defined.

(** The first entry of an operand dictionary is a reference to the given
    output. *)
Definition operand_refers (value_dict : list (string * InputValue))
    (source_node output_name : string) : Prop :=
  match value_dict with
  | (_, input_value) :: _ => value input_value = Ref source_node output_name
  | [] => False
  end.

(** [resolves state node kind src out]: on [state], the handler of kind
    [kind] running on [node] looks up output [out] of node [src].
    - the model-call and knowledge-base handlers read every reference among
      their input parameters;
    - the end handler reads the first reference only;
    - the condition handler reads the operands of the comparisons of the
      first group, in order, up to the first satisfied one, the right
      operand once the left one has been read. *)
Inductive resolves (state : WorkflowState) (node : Node)
  : NodeType -> string -> string -> Prop :=
  | resolves_llm p src out :
      p ∈ params_of node -> value (input p) = Ref src out ->
      resolves state node LLM src out
  | resolves_kb p src out :
      p ∈ params_of node -> value (input p) = Ref src out ->
      resolves state node KB src out
  | resolves_end before p after src out :
      params_of node = before ++ p :: after ->
      Forall is_literal before ->
      value (input p) = Ref src out ->
      resolves state node END src out
  | resolves_left b bs before c after src out :
      branches_of node = b :: bs ->
      conditions (condition b) = before ++ c :: after ->
      Forall (fun c' => eval_condition state c' = Ok false) before ->
      operand_refers (left c) src out ->
      resolves state node CONDITION src out
  | resolves_right b bs before c after v src out :
      branches_of node = b :: bs ->
      conditions (condition b) = before ++ c :: after ->
      Forall (fun c' => eval_condition state c' = Ok false) before ->
      _get_condition_value (left c) state = Ok v ->
      operand_refers (right c) src out ->
      resolves state node CONDITION src out.

(** [reaches w chat g b n st b' n' st']: started on node [n] in state [st]
    with budget [b], the run loop arrives, after zero or more steps, on node
    [n'] in state [st'] with budget [b'] left. *)
Inductive reaches (w : Workflow) (chat : string -> string + string)
    (g : StateGraph)
  : nat -> string -> WorkflowState -> nat -> string -> WorkflowState -> Prop :=
  | reaches_here b n st : reaches w chat g b n st b n st
  | reaches_step b n st kind st1 n1 b' n' st' :
      handler_of g n = Some kind ->
      step w chat g n kind st = Ok (st1, Some n1) ->
      reaches w chat g b n1 st1 b' n' st' ->
      reaches w chat g (S b) n st b' n' st'.

(** The point of a run at which the handler of [node_id] is about to be
    invoked on [state], at least one unit of budget being left. *)
Definition run_reaches (w : Workflow) (chat : string -> string + string)
    (inputs : gmap string PyValue) (node_id : string) (state : WorkflowState)
  : Prop :=
  ∃ start_node question g b,
    next_of_type w START = Ok start_node
    ∧ inputs !! "question" = Some question
    ∧ build w = Ok g
    ∧ reaches w chat g (length (nodes w) * 2)%nat (id start_node)
        (initial_state start_node question) (S b) node_id state.



(** The target of the last edge leaving [source] through the port [port],
    edges without a port being left aside. *)
Fixpoint last_target (es : list Edge) (source port : string) : option string :=
  match es with
  | [] => None
  | e :: rest =>
      match last_target rest source port with
      | Some t => Some t
      | None =>
          if negb (String.eqb (sourcePortID e) "")
             && String.eqb (sourceNodeID e) source
             && String.eqb (sourcePortID e) port
          then Some (targetNodeID e) else None
      end
  end.

Definition endpoints (e : Edge) : string * string :=
  (sourceNodeID e, targetNodeID e).

Definition unconditional (e : Edge) : bool := String.eqb (sourcePortID e) "".

Definition is_type (t : NodeType) (node : Node) : bool :=
  String.eqb (type node) (NodeType_value t).

(** The handler kind [build] registers for a node identifier: that of the
    first node carrying it. *)
Definition kind_of (w : Workflow) (node_id : string) : option NodeType :=
  match get_node_by_id w node_id with
  | Some node =>
      match create_node_handler (type node) with
      | Ok kind => Some kind
      | Raise _ => None
      end
  | None => None
  end.

(** The exceptions that come from the step budget. *)
Definition budget_error (e : PyErr) : bool :=
  match e with
  | RecursionLimitError => true
  | _ => false
  end.

(** *** The structural invariants of the specification *)

Definition count_type (w : Workflow) (t : NodeType) : nat :=
  length (List.filter (fun node => String.eqb (type node) (NodeType_value t))
                      (nodes w)).

Definition has_type (w : Workflow) (node_id : string) (t : NodeType) : bool :=
  match get_node_by_id w node_id with
  | Some node => String.eqb (type node) (NodeType_value t)
  | None => false
  end.

Definition has_port (w : Workflow) (node_id port : string) : bool :=
  existsb (fun e => String.eqb (sourceNodeID e) node_id
                    && String.eqb (sourcePortID e) port) (edges w).

(** The invariants sections 3 and 4.4 of the specification ask of a graph:
    unique identifiers, exactly one start and one end node, edges between
    existing nodes, branch tags on the edges of condition nodes and only
    there, and both tags routed for every condition node. *)
Definition well_formed (w : Workflow) : bool :=
  bool_decide (NoDup (map id (nodes w)))
  && Nat.eqb (count_type w START) 1
  && Nat.eqb (count_type w END) 1
  && forallb (fun e =>
                bool_decide (is_Some (get_node_by_id w (sourceNodeID e)))
                && bool_decide (is_Some (get_node_by_id w (targetNodeID e)))
                && Bool.eqb (negb (String.eqb (sourcePortID e) ""))
                            (has_type w (sourceNodeID e) CONDITION))
             (edges w)
  && forallb (fun node =>
                negb (String.eqb (type node) (NodeType_value CONDITION))
                || (has_port w (id node) "true"
                    && has_port w (id node) "false"))
             (nodes w).

(** ** Concrete workflows *)

Definition slot (nm : string) (v : ValueContent) : InputParameter :=
  {| input := {| input_type := "string"; value := v |}; name := nm |}.

Definition node_with (node_id : string) (kind : NodeType)
    (ps : list InputParameter) (bs : list Branch) : Node :=
  {| data := {| inputs := Some {| inputParameters := Some ps;
                                  branches := Some bs |} |};
     id := node_id;
     type := NodeType_value kind |}.

Definition edge (source target : string) : Edge :=
  {| sourceNodeID := source; targetNodeID := target; sourcePortID := "" |}.

Definition tagged_edge (source tag target : string) : Edge :=
  {| sourceNodeID := source; targetNodeID := target; sourcePortID := tag |}.

Definition operand (v : ValueContent) : list (string * InputValue) :=
  [("input", {| input_type := "string"; value := v |})].

Definition comparison (l : ValueContent) (op : Z) (r : ValueContent)
  : Condition :=
  {| left := operand l; operator := op; right := operand r |}.

Definition group (cs : list Condition) : Branch :=
  {| condition := {| conditions := cs; logic := 1 |} |}.

Definition workflow_of (ns : list Node) (es : list Edge) : Workflow :=
  {| nodes := ns; edges := es; versions := [] |}.

(** The stub client that returns its prompt unchanged. *)
Definition echo (prompt : string) : string + string := inl prompt.

Definition seed (question : string) : gmap string PyValue :=
  {[ "question" := PyStr question ]}.

(** Start -> ModelCall -> End: the model call has the single literal input
    [lit], the end node reads [out]. *)
Definition round_trip (lit : PyValue) (out : ValueContent) : Workflow :=
  workflow_of
    [ node_with "start" START [] [];
      node_with "llm" LLM [slot "prompt" (Literal lit)] [];
      node_with "end" END [slot "result" out] [] ]
    [ edge "start" "llm"; edge "llm" "end" ].

(** A lone condition node with the given groups, and a state on it. *)
Definition condition_only (bs : list Branch) : Workflow :=
  workflow_of [ node_with "check" CONDITION [] bs ] [].

Definition state_on (node_id : string) : WorkflowState :=
  {| node_outputs := ∅; current_node := node_id;
     final_output := PyStr ""; condition_result := None |}.

Definition unequal : Condition :=
  comparison (Literal (PyStr "a")) 1 (Literal (PyStr "b")).

Definition equal : Condition :=
  comparison (Literal (PyStr "a")) 1 (Literal (PyStr "a")).

(** Start -> End, the end node carrying a resolvable reference followed by
    one to an output the start node never has. *)
Definition second_reference_dangling : Workflow :=
  workflow_of
    [ node_with "start" START [] [];
      node_with "end" END [ slot "result" (Ref "start" "question");
                            slot "other" (Ref "start" "missing") ] [] ]
    [ edge "start" "end" ].

(** Start -> ModelCall -> End, the model call reading an output the start
    node never has. *)
Definition first_reference_dangling : Workflow :=
  workflow_of
    [ node_with "start" START [] [];
      node_with "llm" LLM [slot "prompt" (Ref "start" "missing")] [];
      node_with "end" END [slot "result" (Ref "llm" "output")] [] ]
    [ edge "start" "llm"; edge "llm" "end" ].

(** Start -> ModelCall -> Condition, whose comparison never holds and whose
    "false" branch leads back to the model call. *)
Definition looping : Workflow :=
  workflow_of
    [ node_with "start" START [] [];
      node_with "llm" LLM [slot "prompt" (Ref "start" "question")] [];
      node_with "check" CONDITION [] [group [unequal]];
      node_with "end" END [slot "result" (Ref "llm" "output")] [] ]
    [ edge "start" "llm"; edge "llm" "check";
      tagged_edge "check" "true" "end"; tagged_edge "check" "false" "llm" ].

(** A state in which the model-call node of [looping] has already recorded
    an output. *)
Definition already_recorded : WorkflowState :=
  {| node_outputs :=
       {[ "start" := {[ "question" := string_output "new" ]};
          "llm" := {[ "output" := string_output "old" ]} ]};
     current_node := "llm";
     final_output := PyStr "";
     condition_result := None |}.

(** A condition node whose only outgoing edge is tagged "true". *)
Definition false_unrouted : Workflow :=
  workflow_of
    [ node_with "start" START [] [];
      node_with "check" CONDITION [] [group [equal]];
      node_with "end" END [slot "result" (Ref "start" "question")] [] ]
    [ edge "start" "check"; tagged_edge "check" "true" "end" ].

(** Start -> KnowledgeRetrieval -> End, the query being the question. *)
Definition retrieval : Workflow :=
  workflow_of
    [ node_with "start" START [] [];
      node_with "kb" KB [slot "query" (Ref "start" "question")] [];
      node_with "end" END [slot "result" (Ref "kb" "context")] [] ]
    [ edge "start" "kb"; edge "kb" "end" ].

(** Start -> End, the end node being given a literal. *)
Definition literal_end : Workflow :=
  workflow_of
    [ node_with "start" START [] [];
      node_with "end" END [slot "result" (Literal (PyStr "ignored"))] [] ]
    [ edge "start" "end" ].

(** A description without any node. *)
Definition no_nodes : WorkflowJson :=
  {| json_nodes := []; json_edges := []; json_versions := [] |}.

(** A description with a start node and a model call, but no end node. *)
Definition no_end : WorkflowJson :=
  {| json_nodes := [ node_with "start" START [] [];
                     node_with "llm" LLM [slot "prompt" (Literal (PyStr "x"))] [] ];
     json_edges := [ edge "start" "llm" ];
     json_versions := [] |}.
(** ** Further notions and workflows *)

(** The concatenation of the pieces of a prompt, or of the characters of a
    stream. *)
Definition concat_all (parts : list string) : string :=
  foldr String.append "" parts.

(** [d.get(k)] on an insertion-ordered dictionary. *)
Fixpoint dict_get {V} (d : list (string * V)) (k : string) : option V :=
  match d with
  | [] => None
  | (k', v) :: d' => if String.eqb k' k then Some v else dict_get d' k
  end.

(** The type of the node is one of the five wire encodings. *)
Definition supported (node : Node) : Prop :=
  ∃ kind, type node = NodeType_value kind.

(** Start -> ModelCall -> End, the model call reading the question and a
    literal. *)
Definition two_inputs : Workflow :=
  workflow_of
    [ node_with "start" START [] [];
      node_with "llm" LLM [ slot "question" (Ref "start" "question");
                            slot "suffix" (Literal (PyStr "!")) ] [];
      node_with "end" END [slot "result" (Ref "llm" "output")] [] ]
    [ edge "start" "llm"; edge "llm" "end" ].

(** The same model call, its second input being a number. *)
Definition number_input : Workflow :=
  workflow_of
    [ node_with "start" START [] [];
      node_with "llm" LLM [ slot "question" (Ref "start" "question");
                            slot "count" (Literal (PyInt 3)) ] [];
      node_with "end" END [slot "result" (Ref "llm" "output")] [] ]
    [ edge "start" "llm"; edge "llm" "end" ].

(** A workflow with a node of a type that has no handler. *)
Definition unsupported_kind : Workflow :=
  workflow_of
    [ node_with "start" START [] [];
      {| data := {| inputs := None |}; id := "code"; type := "5" |};
      node_with "end" END [] [] ]
    [ edge "start" "code"; edge "code" "end" ].

(** Every byte of the string is a continuation byte. *)
Fixpoint all_continuation (s : string) : bool :=
  match s with
  | EmptyString => true
  | String c rest => is_continuation c && all_continuation rest
  end.

(** *** The model factory ([model_factory.py]) *)

Module ModelFactory.

Section Factory.

(** The chat and the embedding clients, and their constructors
    ([ChatOpenAI(...)], [OpenAIEmbeddings(...)] on the settings), which may
    raise. *)
Variables ChatModel Embeddings : Type.
Variable new_chat : Res ChatModel.
Variable new_embedding : Res Embeddings.

Record t : Type := {
  _chat_model : option ChatModel;
  _embedding_model : option Embeddings
}.

(** [ModelFactory()]: both caches empty. *)
Definition init : t := {| _chat_model := None; _embedding_model := None |}.

(** The property [chat_model]: the cached client, built on first use. *)
Definition chat_model (self : t) : Res ChatModel * t :=
  match _chat_model self with
  | Some m => (Ok m, self)
  | None =>
      match new_chat with
      | Ok m => (Ok m, {| _chat_model := Some m;
                          _embedding_model := _embedding_model self |})
      | Raise e => (Raise e, self)
      end
  end.

(** The property [embedding_model]. *)
Definition embedding_model (self : t) : Res Embeddings * t :=
  match _embedding_model self with
  | Some m => (Ok m, self)
  | None =>
      match new_embedding with
      | Ok m => (Ok m, {| _chat_model := _chat_model self;
                          _embedding_model := Some m |})
      | Raise e => (Raise e, self)
      end
  end.

End Factory.

End ModelFactory.

(** ** Sanity checks of the embedding on concrete inputs *)

Example py_chars_hi : py_chars "hi" = ["h"; "i"].
Proof. reflexivity. Qed.

Example py_len_placeholder : py_len kb_placeholder = 18.
Proof. vm_compute. reflexivity. Qed.

Example length_greater_than_3 :
  _compare_values (PyStr "hello") 3 (PyStr "3") = Ok true.
Proof. vm_compute. reflexivity. Qed.

Example length_greater_than_10 :
  _compare_values (PyStr "hello") 3 (PyStr "10") = Ok false.
Proof. vm_compute. reflexivity. Qed.

Example int_of_padded : int (PyStr " -1_0 ") = Ok (-10).
Proof. vm_compute. reflexivity. Qed.

Example int_of_word : int (PyStr "ten") = Raise ValueError.
Proof. vm_compute. reflexivity. Qed.

Example well_formed_round_trip :
  well_formed (round_trip (PyStr "hi") (Ref "llm" "output")) = true.
Proof. vm_compute. reflexivity. Qed.

(** ** Basic facts *)

Lemma append_empty (s : string) : String.append s "" = s.
Proof.
  induction s as [|c s IH]; [reflexivity |].
  change (String c (String.append s "") = String c s). by rewrite IH.
Qed.

Lemma bind_ok {A B} (m : Res A) (f : A -> Res B) (b : B) :
  m ≫= f = Ok b -> ∃ a, m = Ok a ∧ f a = Ok b.
Proof. destruct m as [a|e]; [eauto | discriminate]. Qed.

Lemma get_node_by_id_id (w : Workflow) (node_id : string) (node : Node) :
  get_node_by_id w node_id = Some node -> id node = node_id.
Proof.
  unfold get_node_by_id. intros H. apply find_some in H as [_ H].
  by apply String.eqb_eq.
Qed.

Lemma current_found (w : Workflow) (state : WorkflowState) (node : Node) :
  get_node_by_id w (current_node state) = Some node ->
  current w state = Ok node.
Proof. unfold current. by intros ->. Qed.

(** ** The round trip *)

(** C1.  On the graph Start -> ModelCall -> End, with the stub client that
    returns its prompt and the seed input question "hi", [run] delivers
    exactly the characters 'h' and 'i': when the single literal input of
    the model call is "hi" and the end node reads the model's output, and
    also, whatever the literal, when the end node reads the seeded question.
    In general the stream is the literal given to the model call, echoed. *)
Theorem round_trip_yields_hi :
  run (round_trip (PyStr "hi") (Ref "llm" "output")) echo (seed "hi")
    = Ok ["h"; "i"]
  ∧ (∀ lit : string,
       run (round_trip (PyStr lit) (Ref "start" "question")) echo (seed "hi")
         = Ok ["h"; "i"])
  ∧ (∀ lit question : string,
       run (round_trip (PyStr lit) (Ref "llm" "output")) echo (seed question)
         = Ok (py_chars lit)).
Proof.
  assert (Hecho : ∀ lit question : string,
    run (round_trip (PyStr lit) (Ref "llm" "output")) echo (seed question)
      = Ok (py_chars lit)).
  { intros lit question.
    transitivity (Ok (A := list string) (py_chars (String.append lit "")));
      [vm_compute; reflexivity | by rewrite append_empty]. }
  split; [apply (Hecho "hi" "hi") |].
  split; [| exact Hecho].
  intros lit. vm_compute. reflexivity.
Qed.

(** ** The condition handler *)

Lemma eval_conditions_all_false (state : WorkflowState) (cs : list Condition) :
  Forall (fun c => eval_condition state c = Ok false) cs ->
  eval_conditions state cs = Ok "false".
Proof.
  induction 1 as [|c cs Hc _ IH]; [reflexivity |].
  cbn [eval_conditions]. rewrite Hc. exact IH.
Qed.

Lemma eval_conditions_first_true (state : WorkflowState)
    (before after : list Condition) (c : Condition) :
  Forall (fun c' => eval_condition state c' = Ok false) before ->
  eval_condition state c = Ok true ->
  eval_conditions state (before ++ c :: after) = Ok "true".
Proof.
  intros Hbefore Hc. induction Hbefore as [|c' cs Hc' _ IH].
  - cbn [app eval_conditions]. by rewrite Hc.
  - cbn [app eval_conditions]. rewrite Hc'. exact IH.
Qed.

Lemma eval_conditions_true_inv (state : WorkflowState) (cs : list Condition) :
  eval_conditions state cs = Ok "true" ->
  ∃ c, c ∈ cs ∧ eval_condition state c = Ok true.
Proof.
  induction cs as [|c cs IH]; [discriminate |].
  cbn [eval_conditions]. destruct (eval_condition state c) as [[|]|e] eqn:Hc.
  - intros _. exists c. split; [left | done].
  - intros H. destruct (IH H) as (c' & Hin & Hc'). exists c'. split; [by right | done].
  - discriminate.
Qed.

(** C2, as the code has it.  A condition node without any group gets the
    routing tag "true".  Otherwise only the first group counts: when none of
    its comparisons is satisfied the tag is "false", and the tag is "true"
    only when some comparison of the first group is satisfied (or there is
    no group).  The handler records no data output: the store and the final
    output are left as they were. *)
Theorem condition_tag_of_first_group
    (w : Workflow) (state : WorkflowState) (node : Node) :
  get_node_by_id w (current_node state) = Some node ->
  (branches_of node = [] ->
     _handle_condition_node w state = Ok (set_condition_result state "true"))
  ∧ (∀ b bs, branches_of node = b :: bs ->
       Forall (fun c => eval_condition state c = Ok false)
              (conditions (condition b)) ->
       _handle_condition_node w state
         = Ok (set_condition_result state "false"))
  ∧ (∀ state', _handle_condition_node w state = Ok state' ->
       condition_result state' = Some "true" ->
       branches_of node = []
       ∨ ∃ b bs c, branches_of node = b :: bs
                   ∧ c ∈ conditions (condition b)
                   ∧ eval_condition state c = Ok true)
  ∧ (∀ state', _handle_condition_node w state = Ok state' ->
       node_outputs state' = node_outputs state
       ∧ final_output state' = final_output state).
Proof.
  intros Hnode. unfold _handle_condition_node.
  rewrite (current_found _ _ _ Hnode). cbn [mbind Res_bind].
  split; [| split; [| split]].
  - by intros ->.
  - intros b bs -> Hfalse. by rewrite (eval_conditions_all_false _ _ Hfalse).
  - intros state'. destruct (branches_of node) as [|b bs]; [by left |].
    intros H Htag. right. exists b, bs.
    destruct (eval_conditions state (conditions (condition b))) as [tag|e] eqn:Hcs;
      [| discriminate].
    cbn in H. injection H as <-. cbn in Htag. injection Htag as ->.
    destruct (eval_conditions_true_inv _ _ Hcs) as (c & Hin & Hc). eauto.
  - intros state'. destruct (branches_of node) as [|b bs].
    + by intros [= <-].
    + destruct (eval_conditions state (conditions (condition b))); [| discriminate].
      by intros [= <-].
Qed.

Lemma condition_tag_of_first_group_witness :
  _handle_condition_node (condition_only [group [unequal]]) (state_on "check")
    = Ok (set_condition_result (state_on "check") "false").
Proof.
  eapply (condition_tag_of_first_group
            (condition_only [group [unequal]]) (state_on "check")).
  - reflexivity.
  - reflexivity.
  - repeat constructor.
Defined.

(** C2, as stated, fails on a condition node without groups: the handler
    sets the routing tag to "true", no comparison being satisfied. *)
Lemma no_groups_tag_true :
  _handle_condition_node (condition_only []) (state_on "check")
    = Ok (set_condition_result (state_on "check") "true")
  ∧ branches_of (node_with "check" CONDITION [] []) = [].
Proof. split; reflexivity. Qed.

(** C3, as the code has it.  The handler reads the first group only: its
    comparisons are evaluated in order and the first satisfied one sets the
    tag to "true" without the later ones being evaluated; the groups after
    the first have no influence on the result. *)
Theorem first_group_short_circuits
    (w : Workflow) (state : WorkflowState) (node : Node)
    (b : Branch) (bs : list Branch) :
  get_node_by_id w (current_node state) = Some node ->
  branches_of node = b :: bs ->
  (∀ before c after,
     conditions (condition b) = before ++ c :: after ->
     Forall (fun c' => eval_condition state c' = Ok false) before ->
     eval_condition state c = Ok true ->
     _handle_condition_node w state = Ok (set_condition_result state "true"))
  ∧ (∀ w' node' bs',
       get_node_by_id w' (current_node state) = Some node' ->
       branches_of node' = b :: bs' ->
       _handle_condition_node w' state = _handle_condition_node w state).
Proof.
  intros Hnode Hbranches. split.
  - intros before c after Hcs Hbefore Hc. unfold _handle_condition_node.
    rewrite (current_found _ _ _ Hnode). cbn [mbind Res_bind].
    rewrite Hbranches, Hcs.
    by rewrite (eval_conditions_first_true _ _ _ _ Hbefore Hc).
  - intros w' node' bs' Hnode' Hbranches'. unfold _handle_condition_node.
    rewrite (current_found _ _ _ Hnode), (current_found _ _ _ Hnode').
    cbn [mbind Res_bind]. by rewrite Hbranches, Hbranches'.
Qed.

Lemma first_group_short_circuits_witness :
  _handle_condition_node (condition_only [group [unequal; equal; unequal]])
                         (state_on "check")
    = Ok (set_condition_result (state_on "check") "true").
Proof.
  eapply (first_group_short_circuits
            (condition_only [group [unequal; equal; unequal]])
            (state_on "check") _ _ [] eq_refl eq_refl)
    with (before := [unequal]) (c := equal) (after := [unequal]).
  - reflexivity.
  - repeat constructor.
  - reflexivity.
Defined.

(** C3, as stated, fails when the first group is unsatisfied and the second
    holds a satisfied comparison: the tag is "false". *)
Lemma later_group_ignored :
  eval_condition (state_on "check") unequal = Ok false
  ∧ eval_condition (state_on "check") equal = Ok true
  ∧ _handle_condition_node (condition_only [group [unequal]; group [equal]])
                           (state_on "check")
      = Ok (set_condition_result (state_on "check") "false").
Proof. repeat split. Qed.

(** ** Start and end nodes are looked for when the graph is run *)

Lemma validate_flags (ns : list Node) (has_start has_end : bool) :
  fold_left
    (fun '(has_start, has_end) node =>
       if String.eqb (type node) (NodeType_value START) then (true, has_end)
       else if String.eqb (type node) (NodeType_value END)
            then (has_start, true)
            else (has_start, has_end))
    ns (has_start, has_end)
  = (has_start || existsb (is_type START) ns,
     has_end || existsb (is_type END) ns).
Proof.
  revert has_start has_end.
  induction ns as [|node ns IH]; intros has_start has_end.
  - cbn. by rewrite !orb_false_r.
  - cbn [fold_left existsb]. unfold is_type at 1 3.
    destruct (String.eqb (type node) (NodeType_value START)) eqn:Hs.
    + apply String.eqb_eq in Hs. rewrite IH, Hs. cbn.
      by rewrite orb_true_r.
    + destruct (String.eqb (type node) (NodeType_value END)) eqn:He;
        rewrite IH; cbn; by rewrite ?orb_true_r.
Qed.

Lemma validate_exists (w : Workflow) :
  validate w
  = existsb (is_type START) (nodes w) && existsb (is_type END) (nodes w).
Proof. unfold validate. by rewrite validate_flags. Qed.

Lemma next_of_type_missing (w : Workflow) (t : NodeType) :
  existsb (is_type t) (nodes w) = false ->
  next_of_type w t = Raise StopIteration.
Proof.
  unfold next_of_type. intros H.
  destruct (find _ (nodes w)) as [node|] eqn:Hfind; [| done].
  apply find_some in Hfind as [Hin Ht].
  assert (existsb (is_type t) (nodes w) = true) as Hex
    by (apply existsb_exists; eauto).
  congruence.
Qed.

Lemma validate_false_missing (w : Workflow) :
  validate w = false ->
  next_of_type w START = Raise StopIteration
  ∨ next_of_type w END = Raise StopIteration.
Proof.
  rewrite validate_exists. intros [H|H]%andb_false_iff;
    [left | right]; by apply next_of_type_missing.
Qed.

Lemma build_missing (w : Workflow) :
  validate w = false ->
  ∃ e, build w = Raise e
       ∧ (is_ok (add_nodes empty_graph (nodes w)) = true -> e = StopIteration).
Proof.
  intros H. unfold build.
  destruct (add_nodes empty_graph (nodes w)) as [g|e];
    [| exists e; split; [done | discriminate]].
  cbn [mbind Res_bind].
  destruct (validate_false_missing w H) as [Hs|He].
  - rewrite Hs. by eexists.
  - rewrite He. destruct (next_of_type w START) as [start_node|e] eqn:Hs.
    + by eexists.
    + exists e. split; [done |]. intros _.
      unfold next_of_type in Hs. destruct (find _ _); [discriminate |].
      by injection Hs as <-.
Qed.

(** C4, as the code has it.  Construction makes no check: a description
    lacking a start or an end node is taken over as it is, and [validate]
    merely answers [false].  The graph is rejected when it is run: [build]
    fails, with the [StopIteration] of the start or end lookup when every
    node can be given a handler, so [run] raises before any node handler is
    invoked and delivers no character; the consumer of [run] sees that
    [StopIteration] as a [RuntimeError]. *)
Theorem missing_start_or_end_rejected_in_run
    (json_data : WorkflowJson) (chat : string -> string + string)
    (inputs : gmap string PyValue) :
  validate (create_workflow_from_json json_data) = false ->
  nodes (create_workflow_from_json json_data) = json_nodes json_data
  ∧ (∃ e, build (create_workflow_from_json json_data) = Raise e
          ∧ (is_ok (add_nodes empty_graph (json_nodes json_data)) = true ->
             e = StopIteration))
  ∧ visited (create_workflow_from_json json_data) chat inputs = []
  ∧ (∃ e, run (create_workflow_from_json json_data) chat inputs = Raise e
          ∧ (is_Some (inputs !! "question") ->
             is_ok (add_nodes empty_graph (json_nodes json_data)) = true ->
             e = RuntimeError)).
Proof.
  set (w := create_workflow_from_json json_data). intros Hinvalid.
  split; [reflexivity |]. split; [by apply build_missing |].
  destruct (build_missing w Hinvalid) as (e & Hbuild & He).
  unfold visited, run, run_state, getitem. rewrite Hbuild.
  destruct (next_of_type w START) as [start_node|e1] eqn:Hs.
  - destruct (inputs !! "question") as [question|].
    + split; [done |]. eexists. split; [done |].
      intros _ Hnodes. by rewrite (He Hnodes).
    + split; [done |]. eexists. split; [done |]. by intros [? ?].
  - split; [done |]. eexists. split; [done |]. intros _ _.
    unfold next_of_type in Hs. destruct (find _ _); [discriminate |].
    by injection Hs as <-.
Qed.

Lemma missing_start_or_end_rejected_in_run_witness :
  visited (create_workflow_from_json no_end) echo (seed "hi") = []
  ∧ ∃ e, run (create_workflow_from_json no_end) echo (seed "hi") = Raise e
         ∧ (is_Some (seed "hi" !! "question") ->
            is_ok (add_nodes empty_graph (json_nodes no_end)) = true ->
            e = RuntimeError).
Proof.
  apply (missing_start_or_end_rejected_in_run no_end echo (seed "hi")).
  reflexivity.
Defined.

(** C4, as stated, fails on a description without an end node: construction
    returns the workflow, and the failure is the [StopIteration] of [build],
    reaching the caller of [run] as a [RuntimeError]. *)
Lemma no_end_accepted_until_run :
  nodes (create_workflow_from_json no_end) = json_nodes no_end
  ∧ validate (create_workflow_from_json no_end) = false
  ∧ build (create_workflow_from_json no_end) = Raise StopIteration
  ∧ run (create_workflow_from_json no_end) echo (seed "hi")
      = Raise RuntimeError.
Proof. repeat split. Qed.

(** ** What [build] records *)

Lemma find_snoc {A} (f : A -> bool) (l : list A) (x : A) :
  find f (l ++ [x])
  = match find f l with
    | Some y => Some y
    | None => if f x then Some x else None
    end.
Proof.
  induction l as [|y l IH]; cbn; [done |].
  destruct (f y); [done | exact IH].
Qed.

Lemma add_node_ok (g g' : StateGraph) (node_id : string) (kind : NodeType) :
  add_node g node_id kind = Ok g' ->
  handler_of g node_id = None
  ∧ graph_nodes g' = graph_nodes g ++ [(node_id, kind)]
  ∧ graph_branches g' = graph_branches g
  ∧ graph_edges g' = graph_edges g
  ∧ entry_point g' = entry_point g
  ∧ finish_point g' = finish_point g.
Proof.
  unfold add_node. destruct (handler_of g node_id); [discriminate |].
  intros [= <-]. by repeat split.
Qed.

Lemma add_nodes_ok (ns : list Node) :
  ∀ g g', add_nodes g ns = Ok g' ->
    graph_branches g' = graph_branches g
    ∧ graph_edges g' = graph_edges g
    ∧ entry_point g' = entry_point g
    ∧ finish_point g' = finish_point g
    ∧ ∀ n, handler_of g' n
           = match handler_of g n with
             | Some kind => Some kind
             | None =>
                 match find (fun node => String.eqb (id node) n) ns with
                 | Some node =>
                     match create_node_handler (type node) with
                     | Ok kind => Some kind
                     | Raise _ => None
                     end
                 | None => None
                 end
             end.
Proof.
  induction ns as [|node ns IH]; intros g g'.
  - intros [= <-]. repeat split. intros n. by destruct (handler_of g n).
  - cbn [add_nodes].
    destruct (create_node_handler (type node)) as [kind|e] eqn:Hkind;
      [| discriminate].
    cbn [mbind Res_bind].
    destruct (add_node g (id node) kind) as [g1|e] eqn:Hadd; [| discriminate].
    intros Hrest. apply add_node_ok in Hadd as (Hfresh & Hn & Hb & He & Hs & Hf).
    destruct (IH _ _ Hrest) as (Hb' & He' & Hs' & Hf' & Hh).
    repeat split; try congruence.
    intros n. rewrite Hh. unfold handler_of. rewrite Hn, find_snoc.
    cbn [find fst snd].
    destruct (find (fun entry => String.eqb entry.1 n) (graph_nodes g));
      [done |].
    destruct (String.eqb (id node) n) eqn:Hid; [| done].
    cbn. by rewrite Hkind.
Qed.

Lemma conditional_edges_fold (g : StateGraph)
    (m : gmap string (gmap string string)) :
  graph_branches g = ∅ ->
  let r := map_fold (fun source_node paths g =>
                       add_conditional_edges g source_node paths) g m in
  graph_nodes r = graph_nodes g
  ∧ graph_branches r = m
  ∧ graph_edges r = graph_edges g
  ∧ entry_point r = entry_point g
  ∧ finish_point r = finish_point g.
Proof.
  intros Hempty.
  apply (map_fold_weak_ind
           (fun r m => graph_nodes r = graph_nodes g
                       ∧ graph_branches r = m
                       ∧ graph_edges r = graph_edges g
                       ∧ entry_point r = entry_point g
                       ∧ finish_point r = finish_point g)).
  - by repeat split.
  - intros i x m' r _ (Hn & Hb & He & Hs & Hf). cbn.
    repeat split; congruence.
Qed.

Lemma plain_edges_fold (es : list Edge) :
  ∀ g,
    let r := fold_left
               (fun g edge =>
                  if String.eqb (sourcePortID edge) ""
                  then add_edge g (sourceNodeID edge) (targetNodeID edge)
                  else g) es g in
    graph_nodes r = graph_nodes g
    ∧ graph_branches r = graph_branches g
    ∧ graph_edges r
      = graph_edges g ++ map endpoints (List.filter unconditional es)
    ∧ entry_point r = entry_point g
    ∧ finish_point r = finish_point g.
Proof.
  induction es as [|e es IH]; intros g; cbn zeta.
  - cbn. rewrite app_nil_r. by repeat split.
  - cbn [fold_left List.filter]. unfold unconditional at 1.
    destruct (String.eqb (sourcePortID e) "").
    + destruct (IH (add_edge g (sourceNodeID e) (targetNodeID e)))
        as (Hn & Hb & He & Hs & Hf).
      cbn zeta in *. rewrite Hn, Hb, He, Hs, Hf. cbn.
      rewrite <- app_assoc. by repeat split.
    + apply IH.
Qed.

(** The graph [build] returns: a handler per node identifier, chosen by the
    type of the node; the routing tables collected from the edges with a
    port; the other edges; the first start node as entry point and the
    first end node as finish point. *)
Lemma build_ok (w : Workflow) (g : StateGraph) :
  build w = Ok g ->
  (∀ n, handler_of g n = kind_of w n)
  ∧ graph_branches g = collect_condition_edges (edges w)
  ∧ graph_edges g = map endpoints (List.filter unconditional (edges w))
  ∧ (∃ start_node, next_of_type w START = Ok start_node
                   ∧ entry_point g = Some (id start_node))
  ∧ (∃ end_node, next_of_type w END = Ok end_node
                 ∧ finish_point g = Some (id end_node)).
Proof.
  unfold build.
  destruct (add_nodes empty_graph (nodes w)) as [g0|e] eqn:Hnodes;
    [| discriminate].
  cbn [mbind Res_bind].
  destruct (next_of_type w START) as [start_node|e]; [| discriminate].
  destruct (next_of_type w END) as [end_node|e]; [| discriminate].
  intros [= <-].
  apply add_nodes_ok in Hnodes as (Hb & He & _ & _ & Hh).
  destruct (conditional_edges_fold g0 (collect_condition_edges (edges w)) Hb)
    as (Hn1 & Hb1 & He1 & _ & _).
  cbn zeta in Hn1, Hb1, He1.
  match goal with
  | |- context [fold_left ?f (edges w) ?g1] =>
      destruct (plain_edges_fold (edges w) g1) as (Hn2 & Hb2 & He2 & _ & _)
  end.
  cbn zeta in Hn2, Hb2, He2.
  split; [| split; [| split; [| split]]].
  - intros n. unfold handler_of at 1. cbn [graph_nodes set_finish_point set_entry_point].
    rewrite Hn2, Hn1. fold (handler_of g0 n). rewrite Hh.
    unfold kind_of, get_node_by_id. reflexivity.
  - cbn [graph_branches set_finish_point set_entry_point]. by rewrite Hb2, Hb1.
  - cbn [graph_edges set_finish_point set_entry_point].
    rewrite He2, He1, He. reflexivity.
  - by exists start_node.
  - by exists end_node.
Qed.

Lemma add_nodes_member (ns : list Node) :
  ∀ g g', add_nodes g ns = Ok g' ->
    ∀ node, node ∈ ns ->
      ∃ kind, create_node_handler (type node) = Ok kind
              ∧ handler_of g' (id node) = Some kind.
Proof.
  induction ns as [|node ns IH]; intros g g' Hadd node' Hin;
    [by apply elem_of_nil in Hin |].
  cbn [add_nodes] in Hadd.
  apply bind_ok in Hadd as (kind & Hkind & Hadd).
  apply bind_ok in Hadd as (g1 & Hg1 & Hrest).
  apply elem_of_cons in Hin as [->|Hin]; [| by eapply IH].
  exists kind. split; [done |].
  apply add_node_ok in Hg1 as (Hfresh & Hn & _).
  destruct (add_nodes_ok _ _ _ Hrest) as (_ & _ & _ & _ & ->).
  unfold handler_of in *. rewrite Hn, find_snoc. cbn [fst].
  destruct (find (fun entry => String.eqb entry.1 (id node)) (graph_nodes g));
    [discriminate |].
  by rewrite String.eqb_refl.
Qed.

Lemma build_member (w : Workflow) (g : StateGraph) (node : Node) :
  build w = Ok g -> node ∈ nodes w ->
  ∃ kind, create_node_handler (type node) = Ok kind
          ∧ kind_of w (id node) = Some kind.
Proof.
  intros Hbuild Hin. destruct (build_ok w g Hbuild) as (Hkinds & _).
  unfold build in Hbuild. apply bind_ok in Hbuild as (g0 & Hnodes & _).
  destruct (add_nodes_member _ _ _ Hnodes node Hin) as (kind & Hkind & Hh).
  exists kind. split; [done |].
  destruct (add_nodes_ok _ _ _ Hnodes) as (_ & _ & _ & _ & Hh0).
  rewrite Hh0 in Hh. cbn in Hh. exact Hh.
Qed.

Lemma collect_lookup (es : list Edge) :
  ∀ (acc : gmap string (gmap string string)) (source tag : string),
    fold_left
      (fun condition_edges edge =>
         if String.eqb (sourcePortID edge) "" then condition_edges
         else
           <[sourceNodeID edge :=
               <[sourcePortID edge := targetNodeID edge]>
                 (default ∅ (condition_edges !! sourceNodeID edge))]>
             condition_edges)
      es acc !! source ≫= (.!! tag)
    = match last_target es source tag with
      | Some t => Some t
      | None => acc !! source ≫= (.!! tag)
      end.
Proof.
  induction es as [|e es IH]; intros acc source tag; [done |].
  cbn [fold_left last_target]. rewrite IH.
  destruct (last_target es source tag) as [t|]; [done |].
  destruct (String.eqb (sourcePortID e) "") eqn:Hport; [done |].
  cbn [negb andb].
  destruct (String.eqb_spec (sourceNodeID e) source) as [->|Hsource].
  - rewrite lookup_insert_eq. cbn [andb mbind option_bind].
    destruct (String.eqb_spec (sourcePortID e) tag) as [->|Htag].
    + by rewrite lookup_insert_eq.
    + rewrite lookup_insert_ne by done.
      by destruct (acc !! source).
  - by rewrite lookup_insert_ne.
Qed.

Lemma collect_condition_edges_lookup (es : list Edge) (source tag : string) :
  collect_condition_edges es !! source ≫= (.!! tag)
  = last_target es source tag.
Proof.
  unfold collect_condition_edges. rewrite collect_lookup.
  by destruct (last_target es source tag).
Qed.


(** ** Routing tables are not checked for completeness *)

(** C8, as the code has it.  [build] makes no check on branch tags: whether
    it succeeds depends on the nodes alone (a handler for each, a start and
    an end node), and the routing table of a node holds exactly the tags
    found on its outgoing edges, each with the target of the last edge that
    carries it. *)
Theorem build_records_tags_as_given (w : Workflow) :
  is_ok (build w)
  = is_ok (add_nodes empty_graph (nodes w))
    && is_ok (next_of_type w START) && is_ok (next_of_type w END)
  ∧ ∀ g, build w = Ok g ->
      ∀ source tag,
        graph_branches g !! source ≫= (.!! tag)
        = last_target (edges w) source tag.
Proof.
  split.
  - unfold build.
    destruct (add_nodes empty_graph (nodes w)); [| done].
    cbn [mbind Res_bind].
    destruct (next_of_type w START); [| done].
    by destruct (next_of_type w END).
  - intros g Hbuild source tag.
    destruct (build_ok w g Hbuild) as (_ & -> & _).
    apply collect_condition_edges_lookup.
Qed.

(** C8, as stated, fails on a condition node whose only outgoing edge is
    tagged "true": [build] returns a graph, whose routing table for the
    node has no entry for "false". *)
Lemma false_tag_unrouted_yet_built :
  ∃ g, build false_unrouted = Ok g
       ∧ kind_of false_unrouted "check" = Some CONDITION
       ∧ graph_branches g !! "check" ≫= (.!! "true") = Some "end"
       ∧ graph_branches g !! "check" ≫= (.!! "false") = None.
Proof. eexists. repeat split. Qed.

(** ** References to outputs that were never produced *)

Lemma output_value_unproduced (state : WorkflowState) (src out : string) :
  ¬ produced state src out -> output_value state src out = Raise KeyError.
Proof.
  unfold produced, output_value, getitem. intros H.
  destruct (node_outputs state !! src) as [outs|]; [| done].
  cbn in *. destruct (outs !! out); [| done].
  exfalso. apply H. by eexists.
Qed.

Lemma output_value_raises (state : WorkflowState) (src out : string) e :
  output_value state src out = Raise e -> e = KeyError.
Proof.
  unfold output_value, getitem.
  destruct (node_outputs state !! src) as [outs|]; [| by intros [= <-]].
  cbn. destruct (outs !! out); [discriminate | by intros [= <-]].
Qed.

Lemma slot_value_raises (state : WorkflowState) (v : ValueContent) e :
  slot_value state v = Raise e -> e = KeyError.
Proof. destruct v; [discriminate | apply output_value_raises]. Qed.

Lemma llm_inputs_unresolved (state : WorkflowState)
    (ps : list InputParameter) (p : InputParameter) (src out : string) :
  p ∈ ps -> value (input p) = Ref src out -> ¬ produced state src out ->
  ∀ acc, llm_inputs state ps acc = Raise KeyError.
Proof.
  intros Hin Href Hmissing.
  induction ps as [|q ps IH]; [by apply elem_of_nil in Hin |].
  intros acc. cbn [llm_inputs].
  destruct (slot_value state (value (input q))) as [v|e] eqn:Hq.
  - cbn [mbind Res_bind]. apply IH.
    apply elem_of_cons in Hin as [->|Hin]; [| done].
    rewrite Href in Hq. cbn in Hq.
    by rewrite (output_value_unproduced _ _ _ Hmissing) in Hq.
  - by rewrite (slot_value_raises _ _ _ Hq).
Qed.

Lemma kb_query_unresolved (state : WorkflowState)
    (ps : list InputParameter) (p : InputParameter) (src out : string) :
  p ∈ ps -> value (input p) = Ref src out -> ¬ produced state src out ->
  ∀ query, kb_query state ps query = Raise KeyError.
Proof.
  intros Hin Href Hmissing.
  induction ps as [|q ps IH]; [by apply elem_of_nil in Hin |].
  intros query. cbn [kb_query].
  destruct (value (input q)) as [content|src' out'] eqn:Hq.
  - apply IH. apply elem_of_cons in Hin as [->|Hin]; [congruence | done].
  - destruct (output_value state src' out') as [v|e] eqn:Hv.
    + cbn [mbind Res_bind]. apply IH.
      apply elem_of_cons in Hin as [->|Hin]; [| done].
      rewrite Href in Hq. injection Hq as <- <-.
      by rewrite (output_value_unproduced _ _ _ Hmissing) in Hv.
    + by rewrite (output_value_raises _ _ _ _ Hv).
Qed.

Lemma end_output_skips_literals (state : WorkflowState)
    (before rest : list InputParameter) :
  Forall is_literal before ->
  end_output state (before ++ rest) = end_output state rest.
Proof.
  induction 1 as [|p before Hp _ IH]; [done |].
  cbn [app end_output]. unfold is_literal in Hp.
  by destruct (value (input p)).
Qed.

Lemma end_output_unresolved (state : WorkflowState)
    (before after : list InputParameter) (p : InputParameter)
    (src out : string) :
  Forall is_literal before -> value (input p) = Ref src out ->
  ¬ produced state src out ->
  end_output state (before ++ p :: after) = Raise KeyError.
Proof.
  intros Hbefore Href Hmissing.
  rewrite end_output_skips_literals by done.
  cbn [end_output]. rewrite Href.
  by rewrite (output_value_unproduced _ _ _ Hmissing).
Qed.

Lemma operand_unresolved (state : WorkflowState)
    (value_dict : list (string * InputValue)) (src out : string) :
  operand_refers value_dict src out -> ¬ produced state src out ->
  _get_condition_value value_dict state = Raise KeyError.
Proof.
  destruct value_dict as [|[k input_value] rest]; [done |].
  cbn. intros -> Hmissing. cbn.
  by apply output_value_unproduced.
Qed.

Lemma eval_conditions_raises (state : WorkflowState)
    (before after : list Condition) (c : Condition) e :
  Forall (fun c' => eval_condition state c' = Ok false) before ->
  eval_condition state c = Raise e ->
  eval_conditions state (before ++ c :: after) = Raise e.
Proof.
  intros Hbefore Hc. induction Hbefore as [|c' cs Hc' _ IH].
  - cbn [app eval_conditions]. by rewrite Hc.
  - cbn [app eval_conditions]. rewrite Hc'. exact IH.
Qed.

(** A handler that looks up an output the store does not hold raises
    [KeyError]. *)
Lemma handler_unresolved (w : Workflow) (chat : string -> string + string)
    (state : WorkflowState) (node : Node) (kind : NodeType)
    (src out : string) :
  get_node_by_id w (current_node state) = Some node ->
  resolves state node kind src out ->
  ¬ produced state src out ->
  handler w chat kind state = Raise KeyError.
Proof.
  intros Hnode Hres Hmissing.
  destruct Hres as [p src out Hin Href | p src out Hin Href
                   | before p after src out Hps Hbefore Href
                   | b bs before c after src out Hbs Hcs Hbefore Hleft
                   | b bs before c after v src out Hbs Hcs Hbefore Hv Hright];
    cbn [handler].
  - unfold _handle_llm_node. rewrite (current_found _ _ _ Hnode).
    cbn [mbind Res_bind].
    by rewrite (llm_inputs_unresolved _ _ _ _ _ Hin Href Hmissing).
  - unfold _handle_kb_node. rewrite (current_found _ _ _ Hnode).
    cbn [mbind Res_bind].
    by rewrite (kb_query_unresolved _ _ _ _ _ Hin Href Hmissing).
  - unfold _handle_end_node. rewrite (current_found _ _ _ Hnode).
    cbn [mbind Res_bind]. rewrite Hps.
    by apply (end_output_unresolved _ _ _ _ src out).
  - unfold _handle_condition_node. rewrite (current_found _ _ _ Hnode).
    cbn [mbind Res_bind]. rewrite Hbs, Hcs.
    rewrite (eval_conditions_raises _ _ _ _ KeyError Hbefore); [done |].
    unfold eval_condition.
    by rewrite (operand_unresolved _ _ _ _ Hleft Hmissing).
  - unfold _handle_condition_node. rewrite (current_found _ _ _ Hnode).
    cbn [mbind Res_bind]. rewrite Hbs, Hcs.
    rewrite (eval_conditions_raises _ _ _ _ KeyError Hbefore); [done |].
    unfold eval_condition. rewrite Hv. cbn [mbind Res_bind].
    by rewrite (operand_unresolved _ _ _ _ Hright Hmissing).
Qed.

Lemma reaches_result (w : Workflow) (chat : string -> string + string)
    (g : StateGraph) b n st b' n' st' :
  reaches w chat g b n st b' n' st' ->
  snd (run_loop w chat g b n st) = snd (run_loop w chat g b' n' st')
  ∧ ∃ before, fst (run_loop w chat g b n st)
              = before ++ fst (run_loop w chat g b' n' st').
Proof.
  induction 1 as [b n st | b n st kind st1 n1 b' n' st' Hkind Hstep _ IH].
  - split; [done | by exists []].
  - destruct IH as (IHr & before & IHv).
    cbn [run_loop]. rewrite Hkind, Hstep.
    destruct (run_loop w chat g b n1 st1) as [vis r]. cbn [fst snd] in *.
    split; [done |]. exists (n :: before). by rewrite IHv.
Qed.

Lemma run_loop_raises (w : Workflow) (chat : string -> string + string)
    (g : StateGraph) b n st kind e :
  handler_of g n = Some kind ->
  wrapped_handler w chat n kind st = Raise e ->
  run_loop w chat g (S b) n st = ([n], Raise e).
Proof.
  intros Hkind Hraise. cbn [run_loop]. rewrite Hkind.
  unfold step. by rewrite Hraise.
Qed.

Lemma resolves_current (state : WorkflowState) (node_id : string)
    (node : Node) (kind : NodeType) (src out : string) :
  resolves state node kind src out ->
  resolves (set_current_node state node_id) node kind src out.
Proof.
  destruct 1; [ eapply resolves_llm | eapply resolves_kb | eapply resolves_end
              | eapply resolves_left | eapply resolves_right ]; eauto.
Qed.

Lemma run_from (w : Workflow) (chat : string -> string + string)
    (inputs : gmap string PyValue) start_node question g :
  next_of_type w START = Ok start_node ->
  inputs !! "question" = Some question ->
  build w = Ok g ->
  run_state w chat inputs
  = run_loop w chat g (length (nodes w) * 2)%nat (id start_node)
      (initial_state start_node question).
Proof.
  intros Hstart Hq Hbuild. unfold run_state, getitem, ainvoke.
  rewrite Hstart, Hq, Hbuild.
  destruct (build_ok w g Hbuild) as (_ & _ & _ & (s & Hs & ->) & _).
  congruence.
Qed.

(** C5, as the code has it.  Whenever, in a run, the handler about to be
    invoked looks up an output the store does not hold (a model call or a
    knowledge-base node: any of its references; an end node: its first
    reference; a condition node: an operand of a comparison it evaluates),
    the lookup raises [KeyError], the run halts on that node with this
    exception, and no character is delivered. *)
Theorem unresolved_reference_halts
    (w : Workflow) (chat : string -> string + string)
    (inputs : gmap string PyValue) (node_id : string) (state : WorkflowState)
    (node : Node) (kind : NodeType) (src out : string) :
  run_reaches w chat inputs node_id state ->
  get_node_by_id w node_id = Some node ->
  create_node_handler (type node) = Ok kind ->
  resolves state node kind src out ->
  ¬ produced state src out ->
  wrapped_handler w chat node_id kind state = Raise KeyError
  ∧ run w chat inputs = Raise KeyError
  ∧ last (visited w chat inputs) = Some node_id.
Proof.
  intros (start_node & question & g & b & Hstart & Hq & Hbuild & Hreach)
         Hnode Hkind Hres Hmissing.
  assert (wrapped_handler w chat node_id kind state = Raise KeyError)
    as Hraise.
  { unfold wrapped_handler.
    apply (handler_unresolved _ _ _ node _ src out);
      [exact Hnode | by apply resolves_current | exact Hmissing]. }
  split; [exact Hraise |].
  unfold run, visited. rewrite (run_from _ _ _ _ _ _ Hstart Hq Hbuild).
  destruct (reaches_result _ _ _ _ _ _ _ _ _ Hreach) as (-> & before & ->).
  assert (handler_of g node_id = Some kind) as Hhandler.
  { destruct (build_ok w g Hbuild) as (-> & _).
    unfold kind_of. by rewrite Hnode, Hkind. }
  rewrite (run_loop_raises _ _ _ _ _ _ kind KeyError Hhandler Hraise).
  split; [done |]. cbn [fst]. by rewrite last_snoc.
Qed.

Lemma unresolved_reference_halts_witness :
  run first_reference_dangling echo (seed "hi") = Raise KeyError
  ∧ last (visited first_reference_dangling echo (seed "hi")) = Some "llm".
Proof.
  apply (unresolved_reference_halts first_reference_dangling echo (seed "hi")
           "llm"
           (initial_state (node_with "start" START [] []) (PyStr "hi"))
           (node_with "llm" LLM [slot "prompt" (Ref "start" "missing")] [])
           LLM "start" "missing").
  - exists (node_with "start" START [] []), (PyStr "hi").
    eexists. exists 4%nat.
    split; [reflexivity |]. split; [reflexivity |]. split; [reflexivity |].
    eapply reaches_step; [reflexivity | reflexivity | apply reaches_here].
  - reflexivity.
  - reflexivity.
  - eapply resolves_llm; [left | reflexivity].
  - unfold produced. vm_compute. intros [x Hx]. discriminate Hx.
Defined.

(** C5, as stated, fails on an end node whose second input refers to an
    output the start node never produces: the handler stops at its first
    reference, and the run delivers its output. *)
Lemma dangling_second_reference_ignored :
  run second_reference_dangling echo (seed "hi") = Ok ["h"; "i"]
  ∧ (∃ node, get_node_by_id second_reference_dangling "end" = Some node
             ∧ slot "other" (Ref "start" "missing") ∈ params_of node)
  ∧ (∃ final, snd (run_state second_reference_dangling echo (seed "hi"))
                = Ok final
              ∧ node_outputs final !! "start" ≫= (.!! "missing") = None).
Proof.
  split; [reflexivity |]. split.
  - eexists. split; [reflexivity |]. right. left.
  - eexists. split; reflexivity.
Qed.

(** ** What the handlers do to the store *)

Lemma end_output_store (state state' : WorkflowState)
    (ps : list InputParameter) :
  end_output state ps = Ok state' ->
  node_outputs state' = node_outputs state.
Proof.
  induction ps as [|p ps IH]; cbn [end_output]; [by intros [= <-] |].
  destruct (value (input p)) as [content|src out]; [exact IH |].
  destruct (output_value state src out); [| discriminate].
  by intros [= <-].
Qed.

Lemma current_set (w : Workflow) (state : WorkflowState) (node_id : string)
    (node : Node) :
  current w (set_current_node state node_id) = Ok node -> id node = node_id.
Proof.
  unfold current. cbn [current_node set_current_node].
  destruct (get_node_by_id w node_id) as [node'|] eqn:Hnode; [| discriminate].
  intros [= <-]. by apply (get_node_by_id_id w).
Qed.

(** What a handler that returns has done to the store. *)
Lemma handler_store_frame
    (w : Workflow) (chat : string -> string + string)
    (node_id : string) (kind : NodeType) (state state' : WorkflowState) :
  wrapped_handler w chat node_id kind state = Ok state' ->
  (∀ k, k ≠ node_id -> node_outputs state' !! k = node_outputs state !! k)
  ∧ (∀ k, is_Some (node_outputs state !! k) ->
          is_Some (node_outputs state' !! k))
  ∧ match kind with
    | LLM => ∃ text, node_outputs state' !! node_id
                     = Some {[ "output" := string_output text ]}
    | KB => node_outputs state' !! node_id
            = Some {[ "context" := string_output kb_placeholder ]}
    | START | END | CONDITION => node_outputs state' = node_outputs state
    end.
Proof.
  unfold wrapped_handler. intros H.
  assert (∀ outs : gmap string NodeOutput,
            node_outputs state' = <[node_id := outs]> (node_outputs state) ->
            (∀ k, k ≠ node_id ->
                  node_outputs state' !! k = node_outputs state !! k)
            ∧ (∀ k, is_Some (node_outputs state !! k) ->
                    is_Some (node_outputs state' !! k))) as Hinsert.
  { intros outs ->. split.
    - intros k Hk. by rewrite lookup_insert_ne.
    - intros k Hsome. destruct (decide (node_id = k)) as [->|Hk].
      + rewrite lookup_insert_eq. by eexists.
      + by rewrite lookup_insert_ne. }
  assert (node_outputs state' = node_outputs state ->
            (∀ k, k ≠ node_id ->
                  node_outputs state' !! k = node_outputs state !! k)
            ∧ (∀ k, is_Some (node_outputs state !! k) ->
                    is_Some (node_outputs state' !! k))) as Hsame.
  { intros ->. by split. }
  destruct kind; cbn [handler] in H.
  - (* start *)
    unfold _handle_start_node in H.
    apply bind_ok in H as (node & _ & [= <-]).
    destruct Hsame as (? & ?); by repeat split.
  - (* end *)
    unfold _handle_end_node in H.
    apply bind_ok in H as (node & _ & H). apply end_output_store in H.
    cbn in H. destruct (Hsame H) as (? & ?). by repeat split.
  - (* model call *)
    unfold _handle_llm_node in H.
    apply bind_ok in H as (node & Hnode & H).
    apply bind_ok in H as (ins & _ & H).
    apply bind_ok in H as (input_str & _ & H).
    apply bind_ok in H as (text & _ & H).
    apply current_set in Hnode. rewrite Hnode in H. injection H as <-.
    cbn [node_outputs set_node_outputs set_current_node] in *.
    destruct (Hinsert _ eq_refl) as (? & ?). repeat split; [done | done |].
    exists text. by rewrite lookup_insert_eq.
  - (* knowledge base *)
    unfold _handle_kb_node in H.
    apply bind_ok in H as (node & Hnode & H).
    apply bind_ok in H as (query & _ & H).
    apply current_set in Hnode. rewrite Hnode in H. injection H as <-.
    cbn [node_outputs set_node_outputs set_current_node] in *.
    destruct (Hinsert _ eq_refl) as (? & ?). repeat split; [done | done |].
    by rewrite lookup_insert_eq.
  - (* condition *)
    unfold _handle_condition_node in H.
    apply bind_ok in H as (node & _ & H).
    destruct (branches_of node) as [|b bs].
    + injection H as <-. destruct Hsame as (? & ?); by repeat split.
    + apply bind_ok in H as (tag & _ & [= <-]).
      destruct Hsame as (? & ?); by repeat split.
Qed.

Lemma output_value_frame (s1 s2 : WorkflowState) (node_id src out : string) :
  (∀ k, k ≠ node_id -> node_outputs s1 !! k = node_outputs s2 !! k) ->
  src ≠ node_id ->
  output_value s1 src out = output_value s2 src out.
Proof. intros H Hsrc. unfold output_value, getitem. by rewrite H. Qed.

Lemma llm_inputs_frame (s1 s2 : WorkflowState) (node_id : string)
    (ps : list InputParameter) :
  (∀ k, k ≠ node_id -> node_outputs s1 !! k = node_outputs s2 !! k) ->
  (∀ p out, p ∈ ps -> value (input p) ≠ Ref node_id out) ->
  ∀ acc, llm_inputs s1 ps acc = llm_inputs s2 ps acc.
Proof.
  intros Hstore. induction ps as [|p ps IH]; intros Hps acc; [done |].
  cbn [llm_inputs].
  assert (slot_value s1 (value (input p)) = slot_value s2 (value (input p)))
    as ->.
  { pose proof (Hps p) as Hp. destruct (value (input p)) as [c|src out]; [done |].
    cbn. apply (output_value_frame _ _ node_id); [done |].
    intros ->. by apply (Hp out); [left |]. }
  destruct (slot_value s2 (value (input p))); [| done]. cbn [mbind Res_bind].
  apply IH. intros q out Hq. apply Hps. by right.
Qed.

Lemma kb_query_frame (s1 s2 : WorkflowState) (node_id : string)
    (ps : list InputParameter) :
  (∀ k, k ≠ node_id -> node_outputs s1 !! k = node_outputs s2 !! k) ->
  (∀ p out, p ∈ ps -> value (input p) ≠ Ref node_id out) ->
  ∀ query, kb_query s1 ps query = kb_query s2 ps query.
Proof.
  intros Hstore. induction ps as [|p ps IH]; intros Hps query; [done |].
  cbn [kb_query]. pose proof (Hps p) as Hp.
  assert (∀ q out, q ∈ ps -> value (input q) ≠ Ref node_id out) as Hrest
    by (intros q out Hq; apply Hps; by right).
  destruct (value (input p)) as [c|src out]; [by apply IH |].
  rewrite (output_value_frame s1 s2 node_id src out); [| done |].
  - destruct (output_value s2 src out); [| done]. cbn [mbind Res_bind].
    by apply IH.
  - intros ->. by apply (Hp out); [left |].
Qed.

(** The handlers that record outputs do not look at what their node has
    recorded already. *)
Lemma recording_handler_ignores_own_entry
    (w : Workflow) (chat : string -> string + string)
    (node_id : string) (kind : NodeType) (state : WorkflowState)
    (node : Node) (outs : gmap string NodeOutput) :
  get_node_by_id w node_id = Some node ->
  (∀ p out, p ∈ params_of node -> value (input p) ≠ Ref node_id out) ->
  kind = LLM ∨ kind = KB ->
  wrapped_handler w chat node_id kind
    (set_node_outputs state (<[node_id := outs]> (node_outputs state)))
  = wrapped_handler w chat node_id kind state.
Proof.
  intros Hnode Hps Hkind.
  pose proof (get_node_by_id_id _ _ _ Hnode) as Hid.
  set (s1 := set_current_node
               (set_node_outputs state
                  (<[node_id := outs]> (node_outputs state))) node_id).
  set (s2 := set_current_node state node_id).
  assert (∀ k, k ≠ node_id -> node_outputs s1 !! k = node_outputs s2 !! k)
    as Hstore by (intros k Hk; cbn; by rewrite lookup_insert_ne).
  assert (current w s1 = Ok node) as Hc1 by (by apply current_found).
  assert (current w s2 = Ok node) as Hc2 by (by apply current_found).
  unfold wrapped_handler. fold s1 s2.
  destruct Hkind as [-> | ->]; cbn [handler].
  - unfold _handle_llm_node. rewrite Hc1, Hc2. cbn [mbind Res_bind].
    rewrite (llm_inputs_frame s1 s2 node_id _ Hstore Hps).
    destruct (llm_inputs s2 (params_of node) []) as [ins|]; [| done].
    cbn [mbind Res_bind]. destruct (join (map snd ins)) as [input_str|]; [| done].
    cbn [mbind Res_bind]. destruct (invoke chat input_str) as [text|]; [| done].
    cbn. unfold set_node_outputs. cbn. f_equal. f_equal.
    rewrite Hid. apply insert_insert_eq.
  - unfold _handle_kb_node. rewrite Hc1, Hc2. cbn [mbind Res_bind].
    rewrite (kb_query_frame s1 s2 node_id _ Hstore Hps).
    destruct (kb_query s2 (params_of node) (PyStr "")) as [query|]; [| done].
    cbn. unfold set_node_outputs. cbn. f_equal. f_equal.
    rewrite Hid. apply insert_insert_eq.
Qed.

Lemma recording_handler_result
    (w : Workflow) (chat : string -> string + string)
    (node_id : string) (kind : NodeType) (state state' : WorkflowState) :
  kind = LLM ∨ kind = KB ->
  wrapped_handler w chat node_id kind state = Ok state' ->
  ∃ outs, state' = set_node_outputs (set_current_node state node_id)
                     (<[node_id := outs]> (node_outputs state)).
Proof.
  unfold wrapped_handler. intros [-> | ->]; cbn [handler]; intros H.
  - unfold _handle_llm_node in H.
    apply bind_ok in H as (node & Hnode & H).
    do 3 (apply bind_ok in H as (? & _ & H)).
    apply current_set in Hnode. rewrite Hnode in H. injection H as <-.
    by eexists.
  - unfold _handle_kb_node in H.
    apply bind_ok in H as (node & Hnode & H).
    apply bind_ok in H as (? & _ & H).
    apply current_set in Hnode. rewrite Hnode in H. injection H as <-.
    by eexists.
Qed.

(** C6, as the code has it.  A handler touches the entry of its own node
    only: the entries of the other nodes are left as they are and no entry
    is deleted.  The model-call and knowledge-base handlers replace the
    entry of their node by a single fresh output, whatever it held before;
    the other handlers leave the store unchanged.  What the node of such a
    handler has recorded already has no influence (the node not reading its
    own outputs): the handler returns the same state, or raises the same
    exception, as without it, so no step fails for an entry being already
    there; and a node that executes again, on the state its handler
    returned, returns that state again, its outputs overwritten. *)
Theorem handlers_write_own_entry_only
    (w : Workflow) (chat : string -> string + string)
    (node_id : string) (kind : NodeType) (state : WorkflowState) :
  (∀ state', wrapped_handler w chat node_id kind state = Ok state' ->
     (∀ k, k ≠ node_id -> node_outputs state' !! k = node_outputs state !! k)
     ∧ (∀ k, is_Some (node_outputs state !! k) ->
             is_Some (node_outputs state' !! k))
     ∧ match kind with
       | LLM => ∃ text, node_outputs state' !! node_id
                        = Some {[ "output" := string_output text ]}
       | KB => node_outputs state' !! node_id
               = Some {[ "context" := string_output kb_placeholder ]}
       | START | END | CONDITION => node_outputs state' = node_outputs state
       end)
  ∧ (∀ node outs,
       get_node_by_id w node_id = Some node ->
       (∀ p out, p ∈ params_of node -> value (input p) ≠ Ref node_id out) ->
       kind = LLM ∨ kind = KB ->
       wrapped_handler w chat node_id kind
         (set_node_outputs state (<[node_id := outs]> (node_outputs state)))
       = wrapped_handler w chat node_id kind state)
  ∧ (∀ node state',
       get_node_by_id w node_id = Some node ->
       (∀ p out, p ∈ params_of node -> value (input p) ≠ Ref node_id out) ->
       kind = LLM ∨ kind = KB ->
       wrapped_handler w chat node_id kind state = Ok state' ->
       wrapped_handler w chat node_id kind state' = Ok state').
Proof.
  split; [| split].
  - intros state'. apply handler_store_frame.
  - intros node outs. apply recording_handler_ignores_own_entry.
  - intros node state' Hnode Hps Hkind Hok.
    destruct (recording_handler_result _ _ _ _ _ _ Hkind Hok) as [outs ->].
    rewrite <- Hok.
    apply (recording_handler_ignores_own_entry w chat node_id kind
             (set_current_node state node_id) node outs Hnode Hps Hkind).
Qed.

Lemma handlers_write_own_entry_only_witness :
  (∃ state',
     wrapped_handler looping echo "llm" LLM already_recorded = Ok state'
     ∧ node_outputs state' !! "start" = node_outputs already_recorded !! "start"
     ∧ (∃ text, node_outputs state' !! "llm"
                = Some {[ "output" := string_output text ]})
     ∧ wrapped_handler looping echo "llm" LLM state' = Ok state')
  ∧ wrapped_handler looping echo "llm" LLM
      (set_node_outputs already_recorded
         (<["llm" := {[ "draft" := string_output "x" ]}]>
            (node_outputs already_recorded)))
    = wrapped_handler looping echo "llm" LLM already_recorded.
Proof.
  destruct (handlers_write_own_entry_only looping echo "llm" LLM
              already_recorded) as (Hframe & Hignore & Hagain).
  assert (∀ p out,
            p ∈ params_of (node_with "llm" LLM
                             [slot "prompt" (Ref "start" "question")] []) ->
            value (input p) ≠ Ref "llm" out) as Hps.
  { intros p out Hp. cbn in Hp.
    apply list_elem_of_singleton in Hp as ->. discriminate. }
  split.
  - eexists. split; [reflexivity |].
    edestruct Hframe as (Hother & _ & Hown); [reflexivity |].
    split; [by apply Hother |]. split; [exact Hown |].
    by eapply Hagain; [reflexivity | exact Hps | left | reflexivity].
  - by eapply Hignore; [reflexivity | exact Hps | left].
Defined.

(** C6, as stated, fails when a node executes again: the model-call handler
    invoked on a state in which its node has an output recorded returns
    normally and the recorded output is replaced; in a run of a graph with a
    loop the model-call node executes four times. *)
Lemma recorded_output_overwritten :
  node_outputs already_recorded !! "llm"
    = Some {[ "output" := string_output "old" ]}
  ∧ (∃ state',
       wrapped_handler looping echo "llm" LLM already_recorded = Ok state'
       ∧ node_outputs state' !! "llm"
           = Some {[ "output" := string_output "new" ]})
  ∧ visited looping echo (seed "hi")
    = ["start"; "llm"; "check"; "llm"; "check"; "llm"; "check"; "llm"].
Proof.
  split; [vm_compute; reflexivity |]. split; [| vm_compute; reflexivity].
  eexists. split; [reflexivity | vm_compute; reflexivity].
Qed.

(** ** The step budget *)

Lemma bind_raises {A B} (m : Res A) (f : A -> Res B) e :
  m ≫= f = Raise e -> m = Raise e ∨ ∃ a, m = Ok a ∧ f a = Raise e.
Proof.
  destruct m as [a|e']; cbn; [right; eauto |]. intros [= ->]. by left.
Qed.

Ltac raise_cases H :=
  repeat match type of H with
         | _ ≫= _ = Raise _ =>
             let a := fresh "a" in
             let Ha := fresh "Ha" in
             apply bind_raises in H as [H | (a & Ha & H)]
         end.



Lemma kb_query_raises (state : WorkflowState) (ps : list InputParameter) e :
  ∀ query, kb_query state ps query = Raise e -> e = KeyError.
Proof.
  induction ps as [|p ps IH]; intros query; cbn [kb_query]; [discriminate |].
  destruct (value (input p)) as [content|src out]; [apply IH |].
  intros H. raise_cases H; [by eapply output_value_raises | by eapply IH].
Qed.













Lemma add_nodes_raises (ns : list Node) e :
  ∀ g, add_nodes g ns = Raise e -> budget_error e = false.
Proof.
  induction ns as [|node ns IH]; intros g; cbn [add_nodes]; [discriminate |].
  intros H. raise_cases H.
  - unfold create_node_handler in H.
    repeat match type of H with
           | (if ?b then _ else _) = _ => destruct b
           end; try discriminate. by injection H as <-.
  - unfold add_node in H. destruct (handler_of g (id node)); [| discriminate].
    by injection H as <-.
  - by eapply IH.
Qed.

Lemma build_raises (w : Workflow) e :
  build w = Raise e -> budget_error e = false.
Proof.
  unfold build. intros H. raise_cases H.
  - by eapply add_nodes_raises.
  - unfold next_of_type in H. destruct (find _ _); [discriminate |].
    by injection H as <-.
  - unfold next_of_type in H. destruct (find _ _); [discriminate |].
    by injection H as <-.
  - discriminate.
Qed.


Lemma next_of_type_in (w : Workflow) (t : NodeType) (node : Node) :
  next_of_type w t = Ok node -> node ∈ nodes w ∧ type node = NodeType_value t.
Proof.
  unfold next_of_type. destruct (find _ (nodes w)) as [node'|] eqn:Hfind;
    [| discriminate].
  intros [= <-]. apply find_some in Hfind as [Hin Ht].
  split; [by apply list_elem_of_In | by apply String.eqb_eq].
Qed.

(** The cases of [run_state]: it fails before the loop, no handler being
    invoked, or it is the run loop from the start node. *)
Lemma run_state_cases (w : Workflow) (chat : string -> string + string)
    (inputs : gmap string PyValue) :
  (∃ e, run_state w chat inputs = ([], Raise e) ∧ budget_error e = false)
  ∨ (∃ start_node question g,
       next_of_type w START = Ok start_node
       ∧ inputs !! "question" = Some question
       ∧ build w = Ok g
       ∧ run_state w chat inputs
         = run_loop w chat g (length (nodes w) * 2)%nat (id start_node)
             (initial_state start_node question)).
Proof.
  destruct (next_of_type w START) as [start_node|e] eqn:Hstart.
  - destruct (inputs !! "question") as [question|] eqn:Hq.
    + destruct (build w) as [g|e] eqn:Hbuild.
      * right. exists start_node, question, g.
        repeat split; try done. by apply run_from.
      * left. exists e. unfold run_state, getitem.
        rewrite Hstart, Hq, Hbuild. split; [done | by eapply build_raises].
    + left. exists KeyError. unfold run_state, getitem.
      by rewrite Hstart, Hq.
  - left. exists e. unfold run_state. rewrite Hstart. split; [done |].
    unfold next_of_type in Hstart. destruct (find _ _); [discriminate |].
    by injection Hstart as <-.
Qed.




(** ** The knowledge-base handler *)

(** C9.  The knowledge-base handler calls no retrieval collaborator: when it
    returns, the output "context" it records for its node is the fixed
    placeholder text, whatever the query resolved to; it fails only for a
    reference that cannot be resolved or an unknown current node. *)
Theorem kb_records_placeholder (w : Workflow) (state : WorkflowState) :
  match _handle_kb_node w state with
  | Ok state' =>
      node_outputs state' !! current_node state
      = Some {[ "context" := string_output kb_placeholder ]}
  | Raise e => e = KeyError ∨ e = AttributeError
  end.
Proof.
  unfold _handle_kb_node, current.
  destruct (get_node_by_id w (current_node state)) as [node|] eqn:Hnode;
    [| by right].
  cbn [mbind Res_bind].
  destruct (kb_query state (params_of node) (PyStr "")) as [query|e] eqn:Hq.
  - cbn. rewrite (get_node_by_id_id _ _ _ Hnode). by rewrite lookup_insert_eq.
  - left. by eapply kb_query_raises.
Qed.

(** The same on a run: with the question as query, the stream delivered is
    the placeholder, for every question. *)
Example retrieval_ignores_question (question : string) :
  run retrieval echo (seed question) = Ok (py_chars kb_placeholder).
Proof. vm_compute. reflexivity. Qed.

(** ** An end node without a reference *)

Lemma end_output_literals (state : WorkflowState) (ps : list InputParameter) :
  Forall is_literal ps -> end_output state ps = Ok state.
Proof.
  induction 1 as [|p ps Hp _ IH]; [done |].
  cbn [end_output]. unfold is_literal in Hp.
  by destruct (value (input p)).
Qed.

Lemma create_node_handler_type (t : string) (kind : NodeType) :
  create_node_handler t = Ok kind -> t = NodeType_value kind.
Proof.
  unfold create_node_handler.
  repeat match goal with
         | |- (if String.eqb ?a ?b then _ else _) = _ -> _ =>
             destruct (String.eqb_spec a b) as [->|?]
         end; (discriminate || by intros [= <-]).
Qed.

Lemma kind_of_node (w : Workflow) (n : string) (kind : NodeType) :
  kind_of w n = Some kind ->
  ∃ node, get_node_by_id w n = Some node
          ∧ node ∈ nodes w
          ∧ type node = NodeType_value kind.
Proof.
  unfold kind_of. destruct (get_node_by_id w n) as [node|] eqn:Hnode;
    [| discriminate].
  destruct (create_node_handler (type node)) as [k|] eqn:Hk; [| discriminate].
  intros [= ->]. exists node. split; [done |]. split.
  - unfold get_node_by_id in Hnode. apply find_some in Hnode as [Hin _].
    by apply list_elem_of_In.
  - by apply create_node_handler_type.
Qed.

Section LiteralEnd.

Variable w : Workflow.
Variable chat : string -> string + string.

Hypothesis end_literals :
  ∀ node, node ∈ nodes w -> type node = NodeType_value END ->
          Forall is_literal (params_of node).

Lemma end_handler_idle (state : WorkflowState) (node : Node) :
  get_node_by_id w (current_node state) = Some node ->
  type node = NodeType_value END ->
  _handle_end_node w state = Ok state.
Proof.
  intros Hnode Htype. unfold _handle_end_node.
  rewrite (current_found _ _ _ Hnode). cbn [mbind Res_bind].
  apply end_output_literals, end_literals; [| done].
  unfold get_node_by_id in Hnode. apply find_some in Hnode as [Hin _].
  by apply list_elem_of_In.
Qed.

Lemma wrapped_handler_final_output (n : string) (kind : NodeType)
    (state state' : WorkflowState) :
  kind_of w n = Some kind ->
  wrapped_handler w chat n kind state = Ok state' ->
  final_output state' = final_output state.
Proof.
  intros Hkind. unfold wrapped_handler. destruct kind; cbn [handler]; intros H.
  - unfold _handle_start_node in H. by apply bind_ok in H as (? & _ & [= <-]).
  - apply kind_of_node in Hkind as (node & Hnode & _ & Htype).
    rewrite (end_handler_idle _ node) in H by done. by injection H as <-.
  - unfold _handle_llm_node in H.
    do 4 (apply bind_ok in H as (? & _ & H)). by injection H as <-.
  - unfold _handle_kb_node in H.
    do 2 (apply bind_ok in H as (? & _ & H)). by injection H as <-.
  - unfold _handle_condition_node in H.
    apply bind_ok in H as (node & _ & H).
    destruct (branches_of node); [by injection H as <- |].
    apply bind_ok in H as (? & _ & H). by injection H as <-.
Qed.

Lemma run_loop_final_output (g : StateGraph) :
  build w = Ok g ->
  ∀ b n state final,
    snd (run_loop w chat g b n state) = Ok final ->
    final_output final = final_output state.
Proof.
  intros Hbuild. destruct (build_ok w g Hbuild) as (Hkinds & _).
  induction b as [|b IH]; intros n state final; cbn [run_loop];
    [discriminate |].
  destruct (handler_of g n) as [kind|] eqn:Hkind; [| discriminate].
  rewrite Hkinds in Hkind.
  destruct (step w chat g n kind state) as [[state' next]|e] eqn:Hstep;
    [| discriminate].
  assert (final_output state' = final_output state) as Hsame.
  { unfold step in Hstep. apply bind_ok in Hstep as (st1 & Hh & Hstep).
    apply (wrapped_handler_final_output _ _ _ _ Hkind) in Hh.
    destruct (decide (finish_point g = Some n)); [by injection Hstep as <- _ |].
    apply bind_ok in Hstep as (targets & _ & Hstep).
    destruct targets as [|t [|t' rest]]; try discriminate.
    by injection Hstep as <- _. }
  destruct next as [target|].
  - specialize (IH target state' final).
    destruct (run_loop w chat g b target state') as [vis r]. cbn [snd] in *.
    intros Hr. by rewrite (IH Hr).
  - cbn. by intros [= <-].
Qed.

Lemma run_state_final_output (inputs : gmap string PyValue)
    (final : WorkflowState) :
  snd (run_state w chat inputs) = Ok final -> final_output final = PyStr "".
Proof.
  destruct (run_state_cases w chat inputs)
    as [(e & -> & _) | (s & q & g & _ & _ & Hbuild & ->)]; [discriminate |].
  intros Hr. by rewrite (run_loop_final_output g Hbuild _ _ _ _ Hr).
Qed.

(** Once the end node is reached, the run completes with an empty stream. *)
Lemma finish_reached (inputs : gmap string PyValue) (node_id : string)
    (state : WorkflowState) (end_node : Node) :
  run_reaches w chat inputs node_id state ->
  next_of_type w END = Ok end_node ->
  id end_node = node_id ->
  run w chat inputs = Ok [].
Proof.
  intros (s & q & g & b & Hs & Hq & Hbuild & Hreach) Hend Hid.
  pose proof (run_from w chat inputs _ _ _ Hs Hq Hbuild) as Hrun.
  destruct (reaches_result _ _ _ _ _ _ _ _ _ Hreach) as (Hr & _).
  destruct (build_ok w g Hbuild) as (Hkinds & _ & _ & _ & (e' & He' & Hfinish)).
  assert (e' = end_node) as -> by congruence.
  apply next_of_type_in in Hend as [Hin Htype].
  destruct (build_member w g end_node Hbuild Hin) as (kind & Hkind & Hko).
  rewrite Htype in Hkind. injection Hkind as <-. rewrite Hid in *.
  destruct (kind_of_node _ _ _ Hko) as (node & Hnode & _ & Hnt).
  assert (run_loop w chat g (S b) node_id state
          = ([node_id], Ok (set_current_node state node_id))) as Hlast.
  { cbn [run_loop]. rewrite Hkinds, Hko. unfold step, wrapped_handler.
    cbn [handler]. rewrite (end_handler_idle _ node) by done.
    cbn [mbind Res_bind]. by rewrite decide_True. }
  rewrite Hlast in Hr. cbn [snd] in Hr.
  unfold run. rewrite Hrun, Hr.
  rewrite <- Hrun in Hr. apply run_state_final_output in Hr.
  by rewrite Hr.
Qed.

End LiteralEnd.

(** C10.  When no end node of the workflow has a reference among its input
    parameters, the end handler returns the state as it received it, so the
    final output keeps its initial value, the empty string: a run that
    reaches the end node completes and delivers the empty stream, the
    literal being neither delivered nor reported; a run delivers nothing
    else than the empty stream. *)
Theorem end_without_reference_empty_stream
    (w : Workflow) (chat : string -> string + string)
    (inputs : gmap string PyValue) :
  (∀ node, node ∈ nodes w -> type node = NodeType_value END ->
           Forall is_literal (params_of node)) ->
  (∀ state node,
     get_node_by_id w (current_node state) = Some node ->
     type node = NodeType_value END ->
     _handle_end_node w state = Ok state)
  ∧ (∀ final, snd (run_state w chat inputs) = Ok final ->
              final_output final = PyStr "")
  ∧ (∀ node_id state end_node,
       run_reaches w chat inputs node_id state ->
       next_of_type w END = Ok end_node ->
       id end_node = node_id ->
       run w chat inputs = Ok [])
  ∧ (run w chat inputs = Ok [] ∨ ∃ e, run w chat inputs = Raise e).
Proof.
  intros Hlit. split; [| split; [| split]].
  - intros state node. by apply end_handler_idle.
  - intros final. by apply run_state_final_output.
  - intros node_id state end_node. by apply finish_reached.
  - unfold run.
    destruct (snd (run_state w chat inputs)) as [final|e] eqn:Hr;
      [| right; by eexists].
    left. by rewrite (run_state_final_output w chat Hlit inputs final Hr).
Qed.

Lemma end_without_reference_empty_stream_witness :
  run literal_end echo (seed "hi") = Ok []
  ∧ visited literal_end echo (seed "hi") = ["start"; "end"].
Proof.
  split; [| reflexivity].
  destruct (end_without_reference_empty_stream literal_end echo (seed "hi"))
    as (_ & _ & _ & [Hrun | [e Hrun]]).
  - intros node Hin Htype. cbn in Hin.
    repeat (apply elem_of_cons in Hin as [->|Hin];
            [first [discriminate Htype | repeat constructor] |]).
    by apply elem_of_nil in Hin.
  - exact Hrun.
  - vm_compute in Hrun. discriminate Hrun.
Defined.

(** * Further properties of the code *)

(** ** The graph model *)

Lemma find_first {A} (f : A -> bool) (l : list A) :
  match find f l with
  | Some x => ∃ before after,
      l = before ++ x :: after ∧ f x = true
      ∧ ∀ y, y ∈ before -> f y = false
  | None => ∀ y, y ∈ l -> f y = false
  end.
Proof.
  induction l as [|a l IH]; cbn [find].
  - intros y Hy. by apply elem_of_nil in Hy.
  - destruct (f a) eqn:Ha.
    + exists [], l. repeat split; [done |]. intros y Hy.
      by apply elem_of_nil in Hy.
    + destruct (find f l) as [x|].
      * destruct IH as (before & after & -> & Hx & Hbefore).
        exists (a :: before), after. repeat split; [done |].
        intros y [->|Hy]%elem_of_cons; [done | by apply Hbefore].
      * intros y [->|Hy]%elem_of_cons; [done | by apply IH].
Qed.

(** X1.  [get_node_by_id] returns the first node of the workflow that
    carries the identifier, nodes before it carrying other identifiers, and
    [None] exactly when no node carries it. *)
Theorem get_node_by_id_first (w : Workflow) (node_id : string) :
  match get_node_by_id w node_id with
  | Some node => ∃ before after,
      nodes w = before ++ node :: after ∧ id node = node_id
      ∧ ∀ m, m ∈ before -> id m ≠ node_id
  | None => ∀ m, m ∈ nodes w -> id m ≠ node_id
  end.
Proof.
  unfold get_node_by_id.
  pose proof (find_first (fun node => String.eqb (id node) node_id) (nodes w))
    as H.
  destruct (find _ (nodes w)) as [node|].
  - destruct H as (before & after & Hw & Hid & Hbefore).
    exists before, after. split; [done |]. split; [by apply String.eqb_eq |].
    intros m Hm. by apply String.eqb_neq, Hbefore.
  - intros m Hm. by apply String.eqb_neq, H.
Qed.

(** X2.  [get_next_nodes] returns exactly the nodes found for the targets
    of the edges that leave the given node: an edge whose target names no
    node contributes nothing, and every node returned belongs to the
    workflow. *)
Theorem get_next_nodes_targets (w : Workflow) (node_id : string) :
  (∀ next_node,
     next_node ∈ get_next_nodes w node_id
     ↔ ∃ e, e ∈ edges w ∧ sourceNodeID e = node_id
            ∧ get_node_by_id w (targetNodeID e) = Some next_node)
  ∧ (∀ next_node, next_node ∈ get_next_nodes w node_id ->
                  next_node ∈ nodes w)
  ∧ (length (get_next_nodes w node_id) ≤ length (edges w))%nat.
Proof.
  assert (∀ next_node,
     next_node ∈ get_next_nodes w node_id
     ↔ ∃ e, e ∈ edges w ∧ sourceNodeID e = node_id
            ∧ get_node_by_id w (targetNodeID e) = Some next_node) as Hiff.
  { intros next_node. unfold get_next_nodes.
    rewrite list_elem_of_In, in_flat_map. split.
    - intros (e & Hin & Hnext). exists e. rewrite list_elem_of_In.
      destruct (String.eqb_spec (sourceNodeID e) node_id) as [Hs|];
        [| by destruct Hnext].
      destruct (get_node_by_id w (targetNodeID e)) as [n|];
        [| by destruct Hnext].
      destruct Hnext as [->|[]]. done.
    - intros (e & Hin & <- & Hnode). exists e.
      rewrite <- list_elem_of_In. split; [done |].
      rewrite String.eqb_refl, Hnode. by left. }
  split; [exact Hiff |]. split.
  - intros next_node (e & _ & _ & Hnode)%Hiff.
    unfold get_node_by_id in Hnode. apply find_some in Hnode as [Hin _].
    by apply list_elem_of_In.
  - clear Hiff. unfold get_next_nodes.
    induction (edges w) as [|e es IH]; [done |].
    cbn [flat_map]. rewrite length_app. cbn [length].
    destruct (String.eqb (sourceNodeID e) node_id); [| cbn; lia].
    destruct (get_node_by_id w (targetNodeID e)); cbn; lia.
Qed.

(** X3.  [validate] answers [True] exactly when the workflow has at least
    one node of the start type and at least one of the end type; edges,
    other nodes and repeated start or end nodes play no part. *)
Theorem validate_true_iff (w : Workflow) :
  validate w = true
  ↔ (∃ s, s ∈ nodes w ∧ type s = NodeType_value START)
    ∧ (∃ e, e ∈ nodes w ∧ type e = NodeType_value END).
Proof.
  rewrite validate_exists, andb_true_iff, !existsb_exists.
  unfold is_type. split.
  - intros [(s & Hs & Hts) (e & He & Hte)]. split.
    + exists s. by rewrite list_elem_of_In, <- String.eqb_eq.
    + exists e. by rewrite list_elem_of_In, <- String.eqb_eq.
  - intros [(s & Hs & Hts) (e & He & Hte)]. split.
    + exists s. by rewrite <- list_elem_of_In, String.eqb_eq.
    + exists e. by rewrite <- list_elem_of_In, String.eqb_eq.
Qed.

(** ** Handler dispatch *)

Lemma create_node_handler_other (t : string) :
  (∀ kind, t ≠ NodeType_value kind) ->
  create_node_handler t = Raise ValueError.
Proof.
  intros Ht. unfold create_node_handler.
  repeat match goal with
         | |- (if String.eqb ?a ?b then _ else _) = _ =>
             destruct (String.eqb_spec a b) as [Heq|_];
               [by apply Ht in Heq |]
         end.
  done.
Qed.

(** X4.  [create_node_handler] inverts the wire encoding of the node kinds:
    the encoding of a kind selects the handler of that kind, a handler is
    selected only for the encoding of its kind, and every other type string
    is refused with [ValueError]. *)
Theorem create_node_handler_round_trip :
  (∀ kind, create_node_handler (NodeType_value kind) = Ok kind)
  ∧ (∀ t kind, create_node_handler t = Ok kind -> t = NodeType_value kind)
  ∧ (∀ t, (∀ kind, t ≠ NodeType_value kind) ->
          create_node_handler t = Raise ValueError).
Proof.
  split; [by intros [] |]. split; [apply create_node_handler_type |].
  apply create_node_handler_other.
Qed.

(** ** Comparisons *)

(** X5.  The comparison operators.  Equality (1) and inequality (2) never
    raise and are each other's negation.  The two length operators (3, 4)
    raise on the same inputs with the same exception, and are never both
    satisfied; a left operand that is an integer, a float, a boolean or
    [None] makes them raise [TypeError] whatever the right operand.  Any
    other operator code gives [False] without looking at the operands. *)
Theorem comparison_operators (l r : PyValue) :
  (∃ b, _compare_values l 1 r = Ok b ∧ _compare_values l 2 r = Ok (negb b))
  ∧ (∀ e, _compare_values l 3 r = Raise e ↔ _compare_values l 4 r = Raise e)
  ∧ (_compare_values l 3 r = Ok true -> _compare_values l 4 r = Ok false)
  ∧ (_compare_values l 4 r = Ok true -> _compare_values l 3 r = Ok false)
  ∧ ((∃ z, l = PyInt z) ∨ (∃ f, l = PyFloat f) ∨ (∃ b, l = PyBool b)
     ∨ l = PyNone ->
     _compare_values l 3 r = Raise TypeError
     ∧ _compare_values l 4 r = Raise TypeError)
  ∧ (∀ op, op ≠ 1 -> op ≠ 2 -> op ≠ 3 -> op ≠ 4 ->
           _compare_values l op r = Ok false).
Proof.
  split; [by exists (py_eq l r) |].
  assert (_compare_values l 3 r = (n ← len l; k ← int r; mret (k <? n)))
    as H3 by done.
  assert (_compare_values l 4 r = (n ← len l; k ← int r; mret (n <? k)))
    as H4 by done.
  rewrite H3, H4. clear H3 H4.
  split; [| split; [| split; [| split]]].
  - intros e. destruct (len l) as [n|e1]; [| done].
    destruct (int r) as [k|e2]; [| done]. cbn. split; discriminate.
  - destruct (len l) as [n|e1]; [| discriminate].
    destruct (int r) as [k|e2]; [| discriminate]. cbn.
    intros [= H]. f_equal. apply Z.ltb_lt in H. apply Z.ltb_ge. lia.
  - destruct (len l) as [n|e1]; [| discriminate].
    destruct (int r) as [k|e2]; [| discriminate]. cbn.
    intros [= H]. f_equal. apply Z.ltb_lt in H. apply Z.ltb_ge. lia.
  - intros [[z ->] | [[f ->] | [[b ->] | ->]]]; done.
  - intros op H1 H2 H3 H4. unfold _compare_values.
    by rewrite !(proj2 (Z.eqb_neq _ _)).
Qed.

(** X6.  A comparison neither operand of which starts with a reference
    reads no output: it evaluates the same in every state. *)
Theorem literal_comparison_state_independent
    (c : Condition) (state state' : WorkflowState) :
  (∀ src out, ¬ operand_refers (left c) src out) ->
  (∀ src out, ¬ operand_refers (right c) src out) ->
  eval_condition state c = eval_condition state' c.
Proof.
  assert (∀ vd, (∀ src out, ¬ operand_refers vd src out) ->
                _get_condition_value vd state
                = _get_condition_value vd state') as Hv.
  { intros [|[k iv] rest] H; [done |]. cbn.
    destruct (value iv) as [content|src out] eqn:Hiv; [done |].
    destruct (H src out). cbn. exact Hiv. }
  intros Hl Hr. unfold eval_condition. by rewrite (Hv _ Hl), (Hv _ Hr).
Qed.

Lemma literal_comparison_state_independent_witness :
  eval_condition (state_on "check") equal = eval_condition already_recorded equal.
Proof.
  apply literal_comparison_state_independent;
    intros src out; cbn; discriminate.
Defined.

(** X7.  An operand dictionary without entries reads as [None]: with an
    empty left operand the length operators raise [TypeError] once the right
    operand has been read, and an equality between two empty operands is
    satisfied. *)
Theorem empty_operand_is_none (state : WorkflowState) (c : Condition) :
  left c = [] ->
  (right c = [] -> operator c = 1 -> eval_condition state c = Ok true)
  ∧ (∀ v, _get_condition_value (right c) state = Ok v ->
          operator c = 3 ∨ operator c = 4 ->
          eval_condition state c = Raise TypeError).
Proof.
  intros Hl. unfold eval_condition. rewrite Hl. cbn [_get_condition_value].
  split.
  - by intros -> ->.
  - intros v -> [-> | ->]; reflexivity.
Qed.

Lemma empty_operand_is_none_witness :
  eval_condition (state_on "check")
    {| left := []; operator := 3; right := operand (Literal (PyStr "3")) |}
  = Raise TypeError.
Proof.
  eapply (empty_operand_is_none (state_on "check")
            {| left := []; operator := 3;
               right := operand (Literal (PyStr "3")) |} eq_refl).
  - reflexivity.
  - by left.
Defined.

(** ** Handlers and the state they return *)

(** X8.  When the condition handler returns, the state differs from the one
    it received by the routing tag only, and [should_continue] reads
    "true" or "false" from it.  On the state a run starts from
    [should_continue] reads "false". *)
Theorem condition_then_should_continue
    (w : Workflow) (state state' : WorkflowState) :
  _handle_condition_node w state = Ok state' ->
  (should_continue state' = "true" ∨ should_continue state' = "false")
  ∧ state' = set_condition_result state (should_continue state')
  ∧ ∀ start_node question,
      should_continue (initial_state start_node question) = "false".
Proof.
  unfold _handle_condition_node. intros H.
  apply bind_ok in H as (node & _ & H).
  assert (∀ cs tag, eval_conditions state cs = Ok tag ->
                    tag = "true" ∨ tag = "false") as Htag.
  { induction cs as [|c cs IH]; cbn [eval_conditions]; intros tag.
    - intros [= <-]. by right.
    - destruct (eval_condition state c) as [[|]|e];
        [| apply IH | discriminate].
      intros [= <-]. by left. }
  destruct (branches_of node) as [|b bs].
  - injection H as <-. cbn. split; [by left | done].
  - apply bind_ok in H as (tag & Hcs & [= <-]). cbn.
    split; [by eapply Htag | done].
Qed.

Lemma condition_then_should_continue_witness :
  should_continue (set_condition_result (state_on "check") "false") = "true"
  ∨ should_continue (set_condition_result (state_on "check") "false")
    = "false".
Proof.
  apply (condition_then_should_continue (condition_only [group [unequal]])
           (state_on "check")).
  reflexivity.
Defined.

(** X9.  Every handler starts by looking up the current node: when the
    workflow has no node with the identifier in [current_node], the handler
    raises [AttributeError], whatever its kind. *)
Theorem handler_unknown_node (w : Workflow) (chat : string -> string + string)
    (kind : NodeType) (state : WorkflowState) :
  get_node_by_id w (current_node state) = None ->
  handler w chat kind state = Raise AttributeError.
Proof.
  intros H.
  assert (current w state = Raise AttributeError) as Hcur
    by (unfold current; by rewrite H).
  destruct kind; cbn [handler];
    [ unfold _handle_start_node | unfold _handle_end_node
    | unfold _handle_llm_node | unfold _handle_kb_node
    | unfold _handle_condition_node ];
    by rewrite Hcur.
Qed.

Lemma handler_unknown_node_witness :
  handler looping echo LLM (state_on "nowhere") = Raise AttributeError.
Proof. apply handler_unknown_node. reflexivity. Defined.

(** X10.  A wrapped handler that returns leaves the identifier of its node
    in [current_node]; only the condition handler changes the routing tag,
    and only the end handler changes the final output. *)
Theorem wrapped_handler_frame
    (w : Workflow) (chat : string -> string + string)
    (node_id : string) (kind : NodeType) (state state' : WorkflowState) :
  wrapped_handler w chat node_id kind state = Ok state' ->
  current_node state' = node_id
  ∧ (kind ≠ CONDITION -> condition_result state' = condition_result state)
  ∧ (kind ≠ END -> final_output state' = final_output state).
Proof.
  assert (∀ st ps st', end_output st ps = Ok st' ->
            current_node st' = current_node st
            ∧ condition_result st' = condition_result st) as Hend.
  { intros st ps st0. induction ps as [|p ps IH]; cbn [end_output].
    - by intros [= <-].
    - destruct (value (input p)) as [content|src out]; [exact IH |].
      destruct (output_value st src out); [| discriminate].
      by intros [= <-]. }
  unfold wrapped_handler. destruct kind; cbn [handler]; intros H.
  - unfold _handle_start_node in H.
    apply bind_ok in H as (? & _ & [= <-]). by repeat split.
  - unfold _handle_end_node in H. apply bind_ok in H as (node & _ & H).
    apply Hend in H as [H1 H2]. by repeat split.
  - unfold _handle_llm_node in H.
    do 4 (apply bind_ok in H as (? & _ & H)). injection H as <-.
    by repeat split.
  - unfold _handle_kb_node in H.
    do 2 (apply bind_ok in H as (? & _ & H)). injection H as <-.
    by repeat split.
  - unfold _handle_condition_node in H.
    apply bind_ok in H as (node & _ & H).
    destruct (branches_of node).
    + injection H as <-. by repeat split.
    + apply bind_ok in H as (? & _ & H). injection H as <-. by repeat split.
Qed.

Lemma wrapped_handler_frame_witness :
  ∃ state',
    wrapped_handler looping echo "llm" LLM already_recorded = Ok state'
    ∧ current_node state' = "llm"
    ∧ final_output state' = final_output already_recorded.
Proof.
  eexists. split; [reflexivity |].
  edestruct (wrapped_handler_frame looping echo "llm" LLM already_recorded)
    as (Hcur & _ & Hfinal); [reflexivity |].
  split; [exact Hcur | by apply Hfinal].
Defined.

(** ** The model-call handler *)

Lemma dict_set_fresh {V} (d : list (string * V)) (k : string) (v : V) :
  k ∉ map fst d -> dict_set d k v = d ++ [(k, v)].
Proof.
  induction d as [|[k' v'] d IH]; [done |].
  cbn [dict_set map fst app]. intros Hk.
  destruct (String.eqb_spec k' k) as [->|_].
  - destruct Hk. left.
  - rewrite IH; [done |]. intros Hin. apply Hk. by right.
Qed.

Lemma dict_set_keys {V} (d : list (string * V)) (k : string) (v : V) :
  k ∈ map fst d -> map fst (dict_set d k v) = map fst d.
Proof.
  induction d as [|[k' v'] d IH]; [by intros ?%elem_of_nil |].
  cbn [dict_set map fst]. intros Hk.
  destruct (String.eqb_spec k' k) as [->|Hne]; [done |].
  cbn [map fst]. rewrite IH; [done |].
  by apply elem_of_cons in Hk as [->|Hk].
Qed.

Lemma dict_set_mono {V} (d : list (string * V)) (k k' : string) (v : V) :
  k' ∈ map fst d ∨ k' = k -> k' ∈ map fst (dict_set d k v).
Proof.
  induction d as [|[k0 v0] d IH]; cbn [dict_set map fst].
  - intros [?%elem_of_nil | ->]; [done | left].
  - destruct (String.eqb_spec k0 k) as [->|Hne]; cbn [map fst].
    + intros [H | ->]; [done | left].
    + intros [[->|H]%elem_of_cons | ->]; [left | |]; right; apply IH; eauto.
Qed.

Lemma dict_get_set {V} (d : list (string * V)) (k k' : string) (v : V) :
  dict_get (dict_set d k v) k'
  = if String.eqb k k' then Some v else dict_get d k'.
Proof.
  induction d as [|[k0 v0] d IH]; cbn [dict_set dict_get]; [done |].
  destruct (String.eqb_spec k0 k) as [->|Hne]; cbn [dict_get].
  - by destruct (String.eqb k k').
  - rewrite IH. destruct (String.eqb_spec k0 k') as [->|]; [| done].
    by rewrite (proj2 (String.eqb_neq _ _)) by done.
Qed.

Lemma llm_inputs_distinct (state : WorkflowState)
    (ps : list InputParameter) (vs : list PyValue) :
  Forall2 (fun p v => slot_value state (value (input p)) = Ok v) ps vs ->
  ∀ acc,
    NoDup (map fst acc ++ map name ps) ->
    llm_inputs state ps acc = Ok (acc ++ zip (map name ps) vs).
Proof.
  induction 1 as [|p v ps vs Hp _ IH]; intros acc Hnodup.
  - cbn. by rewrite app_nil_r.
  - cbn [llm_inputs map zip zip_with]. rewrite Hp. cbn [mbind Res_bind].
    cbn [map] in Hnodup.
    assert (name p ∉ map fst acc) as Hfresh.
    { apply NoDup_app in Hnodup as (_ & Hdisj & _). intros Hin.
      apply (Hdisj _ Hin). left. }
    rewrite (dict_set_fresh _ _ _ Hfresh), IH.
    + by rewrite <- app_assoc.
    + rewrite map_app. cbn [map fst]. rewrite <- app_assoc. exact Hnodup.
Qed.

Lemma join_strings (texts : list string) :
  join (map PyStr texts) = Ok (concat_all texts).
Proof.
  induction texts as [|s texts IH]; [done |].
  cbn [map join]. by rewrite IH.
Qed.

Lemma join_non_string (values : list PyValue) :
  Exists (fun v => ∀ s, v ≠ PyStr s) values -> join values = Raise TypeError.
Proof.
  induction 1 as [v values Hv | v values _ IH]; cbn [join].
  - destruct v as [s| | | |]; try done. by destruct (Hv s).
  - destruct v; try done. by rewrite IH.
Qed.

(** X11.  The model call.  When the input parameters have distinct names
    and each resolves to a string, the handler sends the client the
    concatenation of these strings, in the order of the parameters, and
    records the reply as the single output "output", of type string, of its
    node; nothing else in the state changes. *)
Theorem llm_prompt_is_concatenation
    (w : Workflow) (chat : string -> string + string)
    (state : WorkflowState) (node : Node) (texts : list string)
    (reply : string) :
  get_node_by_id w (current_node state) = Some node ->
  NoDup (map name (params_of node)) ->
  Forall2 (fun p s => slot_value state (value (input p)) = Ok (PyStr s))
          (params_of node) texts ->
  chat (concat_all texts) = inl reply ->
  _handle_llm_node w chat state
  = Ok (set_node_outputs state
          (<[id node := {[ "output" := string_output reply ]}]>
             (node_outputs state))).
Proof.
  intros Hnode Hnames Hvalues Hchat. unfold _handle_llm_node.
  rewrite (current_found _ _ _ Hnode). cbn [mbind Res_bind].
  assert (Forall2 (fun p v => slot_value state (value (input p)) = Ok v)
                  (params_of node) (map PyStr texts)) as Hvs
    by (by apply Forall2_fmap_r).
  rewrite (llm_inputs_distinct _ _ _ Hvs []) by done.
  cbn [app mbind Res_bind]. rewrite snd_zip.
  - rewrite join_strings. cbn [mbind Res_bind]. unfold invoke.
    by rewrite Hchat.
  - apply Forall2_length in Hvs. rewrite (length_map name). lia.
Qed.

Lemma llm_prompt_is_concatenation_witness :
  _handle_llm_node two_inputs echo already_recorded
  = Ok (set_node_outputs already_recorded
          (<["llm" := {[ "output" := string_output "new!" ]}]>
             (node_outputs already_recorded))).
Proof.
  apply (llm_prompt_is_concatenation two_inputs echo already_recorded
           (node_with "llm" LLM [ slot "question" (Ref "start" "question");
                                  slot "suffix" (Literal (PyStr "!")) ] [])
           ["new"; "!"] "new!").
  - reflexivity.
  - apply (bool_decide_unpack _). reflexivity.
  - repeat constructor.
  - reflexivity.
Defined.

(** X12.  The model call does not convert its inputs: when the parameters
    have distinct names and all resolve, but one of the values is not a
    string, the handler raises [TypeError]; the client is not asked. *)
Theorem llm_non_string_input
    (w : Workflow) (chat : string -> string + string)
    (state : WorkflowState) (node : Node) (values : list PyValue) :
  get_node_by_id w (current_node state) = Some node ->
  NoDup (map name (params_of node)) ->
  Forall2 (fun p v => slot_value state (value (input p)) = Ok v)
          (params_of node) values ->
  Exists (fun v => ∀ s, v ≠ PyStr s) values ->
  _handle_llm_node w chat state = Raise TypeError.
Proof.
  intros Hnode Hnames Hvalues Hbad. unfold _handle_llm_node.
  rewrite (current_found _ _ _ Hnode). cbn [mbind Res_bind].
  rewrite (llm_inputs_distinct _ _ _ Hvalues []) by done.
  cbn [app mbind Res_bind]. rewrite snd_zip.
  - by rewrite (join_non_string _ Hbad).
  - apply Forall2_length in Hvalues. rewrite (length_map name). lia.
Qed.

Lemma llm_non_string_input_witness :
  _handle_llm_node number_input echo already_recorded = Raise TypeError.
Proof.
  apply (llm_non_string_input number_input echo already_recorded
           (node_with "llm" LLM [ slot "question" (Ref "start" "question");
                                  slot "count" (Literal (PyInt 3)) ] [])
           [PyStr "new"; PyInt 3]).
  - reflexivity.
  - apply (bool_decide_unpack _). reflexivity.
  - repeat constructor.
  - right. left. discriminate.
Defined.

Lemma llm_inputs_snoc (state : WorkflowState) (ps : list InputParameter)
    (q : InputParameter) :
  ∀ acc,
    llm_inputs state (ps ++ [q]) acc
    = (d ← llm_inputs state ps acc;
       v ← slot_value state (value (input q));
       mret (dict_set d (name q) v)).
Proof.
  induction ps as [|p ps IH]; intros acc; cbn [app llm_inputs].
  - by destruct (slot_value state (value (input q))).
  - destruct (slot_value state (value (input p))); [apply IH | done].
Qed.

Lemma llm_inputs_keys (state : WorkflowState) (ps : list InputParameter) :
  ∀ acc d, llm_inputs state ps acc = Ok d ->
    ∀ k, k ∈ map fst acc ∨ k ∈ map name ps -> k ∈ map fst d.
Proof.
  induction ps as [|p ps IH]; intros acc d; cbn [llm_inputs map].
  - intros [= <-] k [H | H%elem_of_nil]; done.
  - intros H. apply bind_ok in H as (v & _ & H).
    intros k Hk. apply (IH _ _ H). 
    destruct Hk as [Hk | [->|Hk]%elem_of_cons].
    + left. apply dict_set_mono. by left.
    + left. apply dict_set_mono. by right.
    + by right.
Qed.

(** X13.  Input parameters are gathered in a dictionary keyed by their
    names: a further parameter whose name was already used adds no piece to
    the prompt; its value takes the place of the earlier one, the other
    entries and the order being kept. *)
Theorem repeated_name_replaces_in_place
    (state : WorkflowState) (ps : list InputParameter) (q : InputParameter)
    (d : list (string * PyValue)) (v : PyValue) :
  llm_inputs state ps [] = Ok d ->
  name q ∈ map name ps ->
  slot_value state (value (input q)) = Ok v ->
  ∃ d', llm_inputs state (ps ++ [q]) [] = Ok d'
        ∧ map fst d' = map fst d
        ∧ dict_get d' (name q) = Some v
        ∧ ∀ k, k ≠ name q -> dict_get d' k = dict_get d k.
Proof.
  intros Hd Hname Hv. exists (dict_set d (name q) v).
  rewrite llm_inputs_snoc, Hd. cbn [mbind Res_bind]. rewrite Hv.
  split; [done |]. split; [| split].
  - apply dict_set_keys. apply (llm_inputs_keys _ _ _ _ Hd). by right.
  - by rewrite dict_get_set, String.eqb_refl.
  - intros k Hk. rewrite dict_get_set.
    by rewrite (proj2 (String.eqb_neq _ _)).
Qed.

Lemma repeated_name_replaces_in_place_witness :
  ∃ d', llm_inputs already_recorded
          [ slot "a" (Literal (PyStr "x")); slot "b" (Literal (PyStr "y"));
            slot "a" (Literal (PyStr "z")) ] []
        = Ok d'
        ∧ map fst d' = ["a"; "b"]
        ∧ dict_get d' "a" = Some (PyStr "z").
Proof.
  destruct (repeated_name_replaces_in_place already_recorded
              [ slot "a" (Literal (PyStr "x")); slot "b" (Literal (PyStr "y")) ]
              (slot "a" (Literal (PyStr "z")))
              [("a", PyStr "x"); ("b", PyStr "y")] (PyStr "z"))
    as (d' & Hd' & Hkeys & Hget & _).
  - reflexivity.
  - left.
  - reflexivity.
  - exists d'. by repeat split.
Defined.

(** ** The end handler *)

(** X14.  The end handler takes the value of its first reference as the
    final output: literals before it are skipped, parameters after it are
    not read, and the store is left as it was. *)
Theorem end_reads_first_reference
    (w : Workflow) (state : WorkflowState) (node : Node)
    (before after : list InputParameter) (p : InputParameter)
    (src out : string) (v : PyValue) :
  get_node_by_id w (current_node state) = Some node ->
  params_of node = before ++ p :: after ->
  Forall is_literal before ->
  value (input p) = Ref src out ->
  output_value state src out = Ok v ->
  _handle_end_node w state = Ok (set_final_output state v).
Proof.
  intros Hnode Hps Hbefore Href Hv. unfold _handle_end_node.
  rewrite (current_found _ _ _ Hnode). cbn [mbind Res_bind].
  rewrite Hps, end_output_skips_literals by done.
  cbn [end_output]. by rewrite Href, Hv.
Qed.

Lemma end_reads_first_reference_witness :
  _handle_end_node second_reference_dangling
    (set_current_node already_recorded "end")
  = Ok (set_final_output (set_current_node already_recorded "end")
                         (PyStr "new")).
Proof.
  eapply (end_reads_first_reference second_reference_dangling
            (set_current_node already_recorded "end") _ []).
  - reflexivity.
  - reflexivity.
  - constructor.
  - reflexivity.
  - reflexivity.
Defined.

(** ** Building the graph *)

(** X15.  [build] takes the first node of the start type as entry point
    and the first node of the end type as finish point; no node before them
    in the list has that type. *)
Theorem build_entry_and_finish (w : Workflow) (g : StateGraph) :
  build w = Ok g ->
  ∃ start_node end_node,
    entry_point g = Some (id start_node)
    ∧ finish_point g = Some (id end_node)
    ∧ (∃ before after,
         nodes w = before ++ start_node :: after
         ∧ type start_node = NodeType_value START
         ∧ ∀ m, m ∈ before -> type m ≠ NodeType_value START)
    ∧ (∃ before after,
         nodes w = before ++ end_node :: after
         ∧ type end_node = NodeType_value END
         ∧ ∀ m, m ∈ before -> type m ≠ NodeType_value END).
Proof.
  intros Hbuild.
  destruct (build_ok w g Hbuild)
    as (_ & _ & _ & (s & Hs & Hentry) & (e & He & Hfinish)).
  assert (∀ t node, next_of_type w t = Ok node ->
            ∃ before after,
              nodes w = before ++ node :: after
              ∧ type node = NodeType_value t
              ∧ ∀ m, m ∈ before -> type m ≠ NodeType_value t) as Hfirst.
  { intros t node. unfold next_of_type.
    pose proof (find_first
                  (fun node => String.eqb (type node) (NodeType_value t))
                  (nodes w)) as H.
    destruct (find _ (nodes w)) as [x|]; [| discriminate].
    intros [= <-]. destruct H as (before & after & Hw & Hx & Hbefore).
    exists before, after. split; [done |].
    split; [by apply String.eqb_eq |].
    intros m Hm. by apply String.eqb_neq, Hbefore. }
  exists s, e. split; [done |]. split; [done |]. split; by apply Hfirst.
Qed.

Lemma build_entry_and_finish_witness :
  ∃ g start_node end_node,
    build looping = Ok g
    ∧ entry_point g = Some (id start_node)
    ∧ finish_point g = Some (id end_node)
    ∧ type start_node = NodeType_value START
    ∧ type end_node = NodeType_value END.
Proof.
  destruct (build looping) as [g|e] eqn:Hbuild; [| by vm_compute in Hbuild].
  destruct (build_entry_and_finish looping g Hbuild)
    as (s & e & Hs & He & (_ & _ & _ & Hts & _) & (_ & _ & _ & Hte & _)).
  by exists g, s, e.
Defined.

Lemma add_nodes_app (l1 l2 : list Node) :
  ∀ g, add_nodes g (l1 ++ l2) = (g1 ← add_nodes g l1; add_nodes g1 l2).
Proof.
  induction l1 as [|node l1 IH]; intros g; cbn [app add_nodes]; [done |].
  destruct (create_node_handler (type node)) as [kind|]; [| done].
  cbn [mbind Res_bind].
  destruct (add_node g (id node) kind) as [g1|]; [apply IH | done].
Qed.

Lemma add_nodes_supported (ns : list Node) :
  Forall supported ns -> NoDup (map id ns) ->
  ∀ g, (∀ n, n ∈ ns -> handler_of g (id n) = None) ->
       ∃ g', add_nodes g ns = Ok g'.
Proof.
  induction 1 as [|node ns [kind Hkind] _ IH]; intros Hnodup g Hfresh.
  - by exists g.
  - cbn [map] in Hnodup. apply NoDup_cons in Hnodup as [Hnotin Hnodup].
    cbn [add_nodes]. rewrite Hkind.
    replace (create_node_handler (NodeType_value kind)) with (Ok kind)
      by (by destruct kind).
    cbn [mbind Res_bind]. unfold add_node.
    rewrite (Hfresh node) by left. cbn [mret Res_ret mbind Res_bind].
    apply (IH Hnodup). intros n Hn. unfold handler_of. cbn [graph_nodes].
    rewrite find_snoc.
    assert (handler_of g (id n) = None) as Hg by (apply Hfresh; by right).
    unfold handler_of in Hg.
    destruct (find _ (graph_nodes g)); [discriminate |]. cbn [fst].
    destruct (String.eqb_spec (id node) (id n)) as [Heq|]; [| done].
    destruct Hnotin. rewrite Heq. apply list_elem_of_fmap. by exists n.
Qed.

(** X16.  A node whose type has no handler makes [build] fail with
    [ValueError], the nodes before it having been registered; the edges
    and the start and end nodes are not looked at. *)
Theorem build_unsupported_type
    (w : Workflow) (before after : list Node) (bad : Node) :
  nodes w = before ++ bad :: after ->
  Forall supported before ->
  NoDup (map id before) ->
  ¬ supported bad ->
  build w = Raise ValueError.
Proof.
  intros Hw Hbefore Hnodup Hbad. unfold build.
  rewrite Hw, add_nodes_app.
  destruct (add_nodes_supported before Hbefore Hnodup empty_graph)
    as [g1 ->]; [done |].
  cbn [mbind Res_bind add_nodes].
  replace (create_node_handler (type bad)) with (Raise (A := NodeType) ValueError);
    [done |].
  symmetry. apply create_node_handler_other.
  intros kind Hkind. apply Hbad. by exists kind.
Qed.

Lemma build_unsupported_type_witness :
  build unsupported_kind = Raise ValueError.
Proof.
  apply (build_unsupported_type unsupported_kind
           [node_with "start" START [] []]
           [node_with "end" END [] []]
           {| data := {| inputs := None |}; id := "code"; type := "5" |}).
  - reflexivity.
  - constructor; [by exists START | constructor].
  - apply (bool_decide_unpack _). reflexivity.
  - intros [[] H]; discriminate H.
Defined.

Lemma last_target_no_port (es : list Edge) (source : string) :
  last_target es source "" = None.
Proof.
  induction es as [|e es IH]; [done |]. cbn [last_target]. rewrite IH.
  destruct (String.eqb_spec (sourcePortID e) "") as [_|Hport]; [done |].
  cbn [negb andb]. by destruct (String.eqb (sourceNodeID e) source).
Qed.

Lemma last_target_routed (es : list Edge) (e : Edge) :
  e ∈ es -> sourcePortID e ≠ "" ->
  is_Some (last_target es (sourceNodeID e) (sourcePortID e)).
Proof.
  intros Hin Hport. induction es as [|e' es IH];
    [by apply elem_of_nil in Hin |].
  cbn [last_target].
  destruct (last_target es (sourceNodeID e) (sourcePortID e)) as [t|] eqn:Hrest;
    [by eexists |].
  apply elem_of_cons in Hin as [Heq|Hin].
  - subst e'. destruct (String.eqb_spec (sourcePortID e) "") as [|_]; [done |].
    rewrite !String.eqb_refl. by eexists.
  - destruct (IH Hin) as [? ?]. discriminate.
Qed.

(** X17.  [build] drops no edge and mixes none up: the edges without a
    source port are recorded as unconditional edges, in their order; every
    edge with a source port has its port routed in the table of its source
    node; and no table has an entry for the empty port. *)
Theorem build_keeps_every_edge (w : Workflow) (g : StateGraph) :
  build w = Ok g ->
  graph_edges g = map endpoints (List.filter unconditional (edges w))
  ∧ (∀ e, e ∈ edges w -> sourcePortID e = "" -> endpoints e ∈ graph_edges g)
  ∧ (∀ e, e ∈ edges w -> sourcePortID e ≠ "" ->
          is_Some (graph_branches g !! sourceNodeID e
                     ≫= (.!! sourcePortID e)))
  ∧ (∀ source, graph_branches g !! source ≫= (.!! "") = None).
Proof.
  intros Hbuild. destruct (build_ok w g Hbuild) as (_ & Hb & He & _).
  split; [done |]. split; [| split].
  - intros e Hin Hport. rewrite He. apply list_elem_of_fmap. exists e.
    split; [done |]. apply list_elem_of_In, filter_In.
    split; [by apply list_elem_of_In |].
    unfold unconditional. by rewrite Hport.
  - intros e Hin Hport. rewrite Hb, collect_condition_edges_lookup.
    by apply last_target_routed.
  - intros source. rewrite Hb, collect_condition_edges_lookup.
    apply last_target_no_port.
Qed.

Lemma build_keeps_every_edge_witness :
  ∃ g, build looping = Ok g
       ∧ graph_edges g = [("start", "llm"); ("llm", "check")]
       ∧ is_Some (graph_branches g !! "check" ≫= (.!! "false")).
Proof.
  destruct (build looping) as [g|e] eqn:Hbuild; [| by vm_compute in Hbuild].
  destruct (build_keeps_every_edge looping g Hbuild) as (Hedges & _ & Hrouted & _).
  exists g. split; [done |]. split; [exact Hedges |].
  apply (Hrouted (tagged_edge "check" "false" "llm")); [| done].
  cbn. do 3 right. left.
Defined.

(** X18.  [build] registers, for every node of the workflow, the handler
    that belongs to the type of that node, and no handler under an
    identifier that no node carries. *)
Theorem build_dispatches_by_type (w : Workflow) (g : StateGraph) :
  build w = Ok g ->
  (∀ node, node ∈ nodes w ->
     ∃ kind, type node = NodeType_value kind
             ∧ handler_of g (id node) = Some kind)
  ∧ (∀ node_id kind, handler_of g node_id = Some kind ->
       ∃ node, node ∈ nodes w ∧ id node = node_id
               ∧ type node = NodeType_value kind).
Proof.
  intros Hbuild. destruct (build_ok w g Hbuild) as (Hkinds & _). split.
  - intros node Hin.
    destruct (build_member w g node Hbuild Hin) as (kind & Hkind & Hk).
    exists kind. split; [by apply create_node_handler_type |].
    by rewrite Hkinds.
  - intros node_id kind. rewrite Hkinds. intros Hk.
    destruct (kind_of_node _ _ _ Hk) as (node & Hnode & Hin & Htype).
    exists node. split; [done |]. split; [| done].
    by apply (get_node_by_id_id w).
Qed.

Lemma build_dispatches_by_type_witness :
  ∃ g, build looping = Ok g
       ∧ handler_of g "check" = Some CONDITION
       ∧ handler_of g "nowhere" = None.
Proof.
  destruct (build looping) as [g|e] eqn:Hbuild; [| by vm_compute in Hbuild].
  destruct (build_dispatches_by_type looping g Hbuild) as (Hnodes & Honly).
  exists g. split; [done |]. split.
  - destruct (Hnodes (node_with "check" CONDITION [] [group [unequal]]))
      as (kind & Hkind & Hh); [cbn; do 2 right; left |].
    cbn in Hkind. by destruct kind.
  - destruct (handler_of g "nowhere") as [kind|] eqn:Hh; [| done].
    destruct (Honly _ _ Hh) as (node & Hin & Hid & _).
    cbn in Hin.
    repeat (apply elem_of_cons in Hin as [->|Hin]; [discriminate Hid |]).
    by apply elem_of_nil in Hin.
Defined.

(** ** Running a workflow *)

Lemma next_of_type_found (w : Workflow) (t : NodeType) :
  existsb (is_type t) (nodes w) = true -> ∃ node, next_of_type w t = Ok node.
Proof.
  unfold next_of_type. intros (x & Hin & Hx)%existsb_exists.
  destruct (find _ (nodes w)) as [node|] eqn:Hfind; [by eexists |].
  apply (find_none _ _ Hfind) in Hin. unfold is_type in Hx. congruence.
Qed.

(** X19.  [run] needs the key "question": on a workflow that [validate]
    accepts, inputs without it make [run] raise [KeyError] before the graph
    is built or any handler invoked. *)
Theorem run_without_question
    (w : Workflow) (chat : string -> string + string)
    (inputs : gmap string PyValue) :
  validate w = true ->
  inputs !! "question" = None ->
  run w chat inputs = Raise KeyError ∧ visited w chat inputs = [].
Proof.
  rewrite validate_exists. intros [Hs _]%andb_true_iff Hq.
  destruct (next_of_type_found w START Hs) as [start_node Hstart].
  unfold run, visited, run_state, getitem. by rewrite Hstart, Hq.
Qed.

Lemma run_without_question_witness :
  run looping echo ∅ = Raise KeyError ∧ visited looping echo ∅ = [].
Proof. apply run_without_question; reflexivity. Defined.

(** X20.  Of its inputs [run] reads the key "question" only: two input
    dictionaries with the same question give the same run, whatever else
    they hold. *)
Theorem run_reads_question_only
    (w : Workflow) (chat : string -> string + string)
    (inputs inputs' : gmap string PyValue) :
  inputs !! "question" = inputs' !! "question" ->
  run w chat inputs = run w chat inputs'
  ∧ visited w chat inputs = visited w chat inputs'.
Proof.
  intros H. unfold run, visited, run_state, getitem. by rewrite H.
Qed.

Lemma run_reads_question_only_witness :
  run two_inputs echo (<["context" := PyStr "unused"]> (seed "hi"))
  = run two_inputs echo (seed "hi").
Proof.
  apply (run_reads_question_only two_inputs echo
           (<["context" := PyStr "unused"]> (seed "hi")) (seed "hi")).
  vm_compute. reflexivity.
Defined.

Lemma split_points_shape (s : string) :
  String.append (fst (split_points s)) (concat_all (snd (split_points s))) = s
  ∧ all_continuation (fst (split_points s)) = true
  ∧ Forall (fun ch => ∃ c k, ch = String c k ∧ is_continuation c = false
                             ∧ all_continuation k = true)
           (snd (split_points s)).
Proof.
  induction s as [|c s (IHs & IHk & IHcs)]; [by repeat split |].
  cbn [split_points]. destruct (split_points s) as [k cs]. cbn [fst snd] in *.
  destruct (is_continuation c) eqn:Hc; cbn [fst snd].
  - split; [| split; [| done]].
    + change (String c (String.append k (concat_all cs)) = String c s).
      by rewrite IHs.
    + cbn [all_continuation]. by rewrite Hc, IHk.
  - split; [| split; [done |]].
    + change (String c (String.append k (concat_all cs)) = String c s).
      by rewrite IHs.
    + constructor; [| done]. by exists c, k.
Qed.

(** X21.  What [run] delivers.  When the run ends with a string as final
    output, [run] yields it cut into its characters: every item is one
    leading byte followed by the continuation bytes that belong to it, and
    the items joined give back the final output (a final output that
    starts in the middle of a character loses those bytes). *)
Theorem run_streams_final_output
    (w : Workflow) (chat : string -> string + string)
    (inputs : gmap string PyValue) (final : WorkflowState) (s : string) :
  snd (run_state w chat inputs) = Ok final ->
  final_output final = PyStr s ->
  ∃ chars,
    run w chat inputs = Ok chars
    ∧ String.append (fst (split_points s)) (concat_all chars) = s
    ∧ Forall (fun ch => ∃ c k, ch = String c k ∧ is_continuation c = false
                               ∧ all_continuation k = true) chars.
Proof.
  intros Hfinal Hs. exists (py_chars s). unfold run. rewrite Hfinal.
  unfold stream. rewrite Hs. split; [done |].
  destruct (split_points_shape s) as (Hjoin & _ & Hchars). by split.
Qed.

Lemma run_streams_final_output_witness :
  ∃ chars,
    run retrieval echo (seed "hi") = Ok chars
    ∧ String.append (fst (split_points kb_placeholder)) (concat_all chars)
      = kb_placeholder
    ∧ Forall (fun ch => ∃ c k, ch = String c k ∧ is_continuation c = false
                               ∧ all_continuation k = true) chars.
Proof.
  eapply (run_streams_final_output retrieval echo (seed "hi")).
  - vm_compute. reflexivity.
  - reflexivity.
Defined.

(** X22.  Delivery.  When a run arrives on the end node, no edge leaves
    that node, and the end handler there leaves a string as final output,
    the run completes and [run] delivers the characters of that string. *)
Theorem run_delivers_end_output
    (w : Workflow) (chat : string -> string + string)
    (inputs : gmap string PyValue) (node_id : string)
    (state state' : WorkflowState) (end_node : Node) (s : string) :
  run_reaches w chat inputs node_id state ->
  next_of_type w END = Ok end_node ->
  id end_node = node_id ->
  (∀ e, e ∈ edges w -> sourceNodeID e ≠ node_id) ->
  _handle_end_node w (set_current_node state node_id) = Ok state' ->
  final_output state' = PyStr s ->
  run w chat inputs = Ok (py_chars s)
  ∧ last (visited w chat inputs) = Some node_id.
Proof.
  intros (st & q & g & b & Hs & Hq & Hbuild & Hreach) Hend Hid _ Hhandler
         Hfinal.
  destruct (reaches_result _ _ _ _ _ _ _ _ _ Hreach) as (Hr & before & Hv).
  destruct (build_ok w g Hbuild) as (Hkinds & _ & _ & _ & (e' & He' & Hfinish)).
  assert (e' = end_node) as -> by congruence.
  apply next_of_type_in in Hend as [Hin Htype].
  destruct (build_member w g end_node Hbuild Hin) as (kind & Hkind & Hko).
  rewrite Htype in Hkind. injection Hkind as <-. rewrite Hid in *.
  assert (run_loop w chat g (S b) node_id state = ([node_id], Ok state'))
    as Hlast.
  { cbn [run_loop]. rewrite Hkinds, Hko. unfold step, wrapped_handler.
    cbn [handler]. rewrite Hhandler. cbn [mbind Res_bind].
    by rewrite decide_True. }
  unfold run, visited. rewrite (run_from w chat inputs _ _ _ Hs Hq Hbuild).
  rewrite Hr, Hv, Hlast. cbn [fst snd]. unfold stream. rewrite Hfinal.
  split; [done |]. by rewrite last_snoc.
Qed.

Lemma run_delivers_end_output_witness :
  run two_inputs echo (seed "hi") = Ok ["h"; "i"; "!"]
  ∧ last (visited two_inputs echo (seed "hi")) = Some "end".
Proof.
  eapply (run_delivers_end_output two_inputs echo (seed "hi") "end"
            _ _ (node_with "end" END [slot "result" (Ref "llm" "output")] [])
            "hi!").
  - exists (node_with "start" START [] []), (PyStr "hi").
    eexists. exists 3%nat.
    split; [reflexivity |]. split; [reflexivity |]. split; [reflexivity |].
    eapply reaches_step; [reflexivity | reflexivity |].
    eapply reaches_step; [reflexivity | reflexivity |].
    apply reaches_here.
  - reflexivity.
  - reflexivity.
  - intros e He. cbn in He.
    repeat (apply elem_of_cons in He as [->|He]; [discriminate |]).
    by apply elem_of_nil in He.
  - reflexivity.
  - reflexivity.
Defined.

(** ** The model factory *)

(** X23.  The model factory builds each client at most once: once the chat
    client has been obtained, every later access returns the same client
    without consulting the constructor, and obtaining it does not touch the
    embedding cache; a constructor that raises leaves the factory as it
    was, so that the next access tries again. *)
Theorem factory_builds_once
    (ChatModel Embeddings : Type) (new_chat : Res ChatModel)
    (self : ModelFactory.t ChatModel Embeddings) :
  match ModelFactory.chat_model _ _ new_chat self with
  | (Ok m, self') =>
      (∀ other : Res ChatModel,
         ModelFactory.chat_model _ _ other self' = (Ok m, self'))
      ∧ ModelFactory._embedding_model _ _ self'
        = ModelFactory._embedding_model _ _ self
      ∧ (∀ new_embedding : Res Embeddings,
           ModelFactory._chat_model _ _
             (snd (ModelFactory.embedding_model _ _ new_embedding self'))
           = Some m)
  | (Raise e, self') => self' = self ∧ new_chat = Raise e
  end.
Proof.
  unfold ModelFactory.chat_model, ModelFactory.embedding_model.
  destruct self as [[m|] emb]; cbn.
  - split; [done |]. split; [done |]. intros new_embedding.
    destruct emb; [done |]. by destruct new_embedding.
  - destruct new_chat as [m|e]; cbn; [| done].
    split; [done |]. split; [done |]. intros new_embedding.
    destruct emb; [done |]. by destruct new_embedding.
Qed.

(** ** Errors in a condition *)

(** X24.  An exception raised by a comparison of the first group reaches the
    caller of the condition handler when no comparison before it is
    satisfied: the handler raises it and sets no routing tag. *)
Theorem condition_error_propagates
    (w : Workflow) (state : WorkflowState) (node : Node)
    (b : Branch) (bs : list Branch) (before after : list Condition)
    (c : Condition) (e : PyErr) :
  get_node_by_id w (current_node state) = Some node ->
  branches_of node = b :: bs ->
  conditions (condition b) = before ++ c :: after ->
  Forall (fun c' => eval_condition state c' = Ok false) before ->
  eval_condition state c = Raise e ->
  _handle_condition_node w state = Raise e.
Proof.
  intros Hnode Hbs Hcs Hbefore Hc. unfold _handle_condition_node.
  rewrite (current_found _ _ _ Hnode). cbn [mbind Res_bind].
  rewrite Hbs, Hcs. by rewrite (eval_conditions_raises _ _ _ _ e Hbefore Hc).
Qed.

Lemma condition_error_propagates_witness :
  _handle_condition_node
    (condition_only
       [group [unequal;
               comparison (Literal (PyInt 5)) 3 (Literal (PyStr "3"));
               equal]])
    (state_on "check")
  = Raise TypeError.
Proof.
  eapply (condition_error_propagates _ (state_on "check") _ _ []
            [unequal] [equal]
            (comparison (Literal (PyInt 5)) 3 (Literal (PyStr "3")))).
  - reflexivity.
  - reflexivity.
  - reflexivity.
  - repeat constructor.
  - reflexivity.
Defined.
